(** * generate_code.py: from PlantUML class diagrams to Java skeletons

    A shallow embedding of [generate_java_code_from_plantuml]
    (src/generate_code.py) and the properties of it that the specification
    states.

    Text is modelled by [string]; a character is a code point below 128 and
    the classes [\w], [\s] and the case mappings are the ones Python applies
    to such code points.  The regular expressions of the source are values
    of [Re.regex], run by a backtracking matcher with Python's priorities
    (greedy quantifiers, the optional part tried first).  Dictionaries are
    association lists in insertion order, as Python's are; subscripting a
    dictionary may raise [KeyError], so the passes that subscript live in
    the option monad.  The files written by pass 4 are returned as a
    dictionary from the declared name to the text written to
    [<name>.java]. *)

From Stdlib Require Import String Ascii List Arith Bool Lia.
Import ListNotations.
Local Open Scope list_scope.
Local Open Scope string_scope.

(** ** Python's string built-ins *)

Module Py.

Definition code (c : ascii) : nat := nat_of_ascii c.

Definition between (lo hi : nat) (c : ascii) : bool :=
  ((lo <=? code c)%nat && (code c <=? hi)%nat)%bool.

Definition is_upper (c : ascii) : bool := between 65 90 c.
Definition is_lower (c : ascii) : bool := between 97 122 c.
Definition is_digit (c : ascii) : bool := between 48 57 c.

(** [str.isspace] and the class [\s]: tab to carriage return, the four
    separators 0x1c..0x1f and the blank. *)
Definition is_space (c : ascii) : bool :=
  between 9 13 c || between 28 32 c.

(** The class [\w]. *)
Definition is_word (c : ascii) : bool :=
  is_lower c || is_upper c || is_digit c || (code c =? 95)%nat.

Definition lower_char (c : ascii) : ascii :=
  if is_upper c then ascii_of_nat (code c + 32) else c.

Definition upper_char (c : ascii) : ascii :=
  if is_lower c then ascii_of_nat (code c - 32) else c.

(** [s.lower()] *)
Fixpoint lower (s : string) : string :=
  match s with
  | EmptyString => EmptyString
  | String c s' => String (lower_char c) (lower s')
  end.

(** [s.capitalize()]: the first character in upper case and all the
    others in lower case. *)
Definition capitalize (s : string) : string :=
  match s with
  | EmptyString => EmptyString
  | String c s' => String (upper_char c) (lower s')
  end.

(** [s.lstrip()], [s.rstrip()] and [s.strip()] without argument. *)
Fixpoint lstrip (s : string) : string :=
  match s with
  | EmptyString => EmptyString
  | String c s' => if is_space c then lstrip s' else s
  end.

Fixpoint rstrip (s : string) : string :=
  match s with
  | EmptyString => EmptyString
  | String c s' =>
      match rstrip s' with
      | EmptyString => if is_space c then EmptyString else String c EmptyString
      | r => String c r
      end
  end.

Definition strip (s : string) : string := rstrip (lstrip s).

(** [s.split(sep)] for a separator of one character: never the empty
    list. *)
Fixpoint split (sep : ascii) (s : string) : list string :=
  match s with
  | EmptyString => [EmptyString]
  | String c s' =>
      if Ascii.eqb c sep then EmptyString :: split sep s'
      else match split sep s' with
           | w :: ws => String c w :: ws
           | [] => [String c EmptyString]
           end
  end.

(** [sep.join(l)] *)
Fixpoint join (sep : string) (l : list string) : string :=
  match l with
  | [] => EmptyString
  | [x] => x
  | x :: l' => x ++ sep ++ join sep l'
  end.

(** [needle in hay] *)
Fixpoint contains (needle hay : string) : bool :=
  String.prefix needle hay ||
  match hay with
  | EmptyString => false
  | String _ hay' => contains needle hay'
  end.

(** [s.replace(old, new)] for a non-empty [old]: the occurrences are taken
    from the left and do not overlap.  [skip] counts the characters of the
    occurrence being replaced that are still to be passed over. *)
Fixpoint replace_from (old new s : string) (skip : nat) : string :=
  match s with
  | EmptyString => EmptyString
  | String c s' =>
      match skip with
      | S n => replace_from old new s' n
      | O =>
          if String.prefix old s
          then new ++ replace_from old new s' (String.length old - 1)
          else String c (replace_from old new s' 0)
      end
  end.

Definition replace (old new s : string) : string := replace_from old new s 0.

(** Truth value of a string. *)
Definition truthy (s : string) : bool :=
  match s with EmptyString => false | _ => true end.

End Py.

(** ** The regular expressions of module [re] *)

Module Re.

(** The fragment the five patterns of the source are written in.  Every
    starred item of the source is a character class. *)
Inductive regex : Type :=
| Lit (l : string)               (* a literal text *)
| Cls (p : ascii -> bool)        (* one character of a class *)
| Star (p : ascii -> bool)       (* [p*], greedy *)
| Cat (r1 r2 : regex)
| Opt (r : regex)                (* [(?:r)?], greedy *)
| Grp (i : nat) (r : regex)      (* capturing group number i *)
| Bol                            (* [^] under re.MULTILINE *)
| Eol.                           (* [$] under re.MULTILINE *)

Definition Plus (p : ascii -> bool) : regex := Cat (Cls p) (Star p).

(** A position in the subject: the character before it, if any, and the text
    from it on. *)
Definition cursor : Type := option ascii * string.

Definition rest (cur : cursor) : string := snd cur.

(** The groups that took part in the match, most recent first. *)
Definition groups : Type := list (nat * string).

Fixpoint group (i : nat) (g : groups) : option string :=
  match g with
  | [] => None
  | (j, w) :: g' => if Nat.eqb i j then Some w else group i g'
  end.

(** The text between two positions of one subject. *)
Definition consumed (from to : cursor) : string :=
  substring 0 (String.length (rest from) - String.length (rest to)) (rest from).

Fixpoint lit (l : string) (cur : cursor) : option cursor :=
  match l with
  | EmptyString => Some cur
  | String c l' =>
      match rest cur with
      | String d s' => if Ascii.eqb c d then lit l' (Some d, s') else None
      | EmptyString => None
      end
  end.

Definition newline : ascii := ascii_of_nat 10.

Definition at_bol (cur : cursor) : bool :=
  match fst cur with
  | None => true
  | Some c => Ascii.eqb c newline
  end.

Definition at_eol (cur : cursor) : bool :=
  match rest cur with
  | EmptyString => true
  | String c _ => Ascii.eqb c newline
  end.

Section Matcher.

Variable A : Type.

(** The longest run first, then one character less, and so on. *)
Fixpoint star (p : ascii -> bool) (prev : option ascii) (s : string)
    (k : cursor -> option A) : option A :=
  match s with
  | String c s' =>
      if p c then
        match star p (Some c) s' k with
        | Some a => Some a
        | None => k (prev, s)
        end
      else k (prev, s)
  | EmptyString => k (prev, s)
  end.

(** [exec r cur g k]: match [r] at [cur] and hand the position reached and
    the groups to [k]; when [k] refuses, try the next way to match [r]. *)
Fixpoint exec (r : regex) (cur : cursor) (g : groups)
    (k : cursor -> groups -> option A) : option A :=
  match r with
  | Lit l =>
      match lit l cur with
      | Some cur' => k cur' g
      | None => None
      end
  | Cls p =>
      match rest cur with
      | String c s' => if p c then k (Some c, s') g else None
      | EmptyString => None
      end
  | Star p => star p (fst cur) (rest cur) (fun cur' => k cur' g)
  | Cat r1 r2 => exec r1 cur g (fun cur' g' => exec r2 cur' g' k)
  | Opt r1 =>
      match exec r1 cur g k with
      | Some a => Some a
      | None => k cur g
      end
  | Grp i r1 =>
      exec r1 cur g (fun cur' g' => k cur' ((i, consumed cur cur') :: g'))
  | Bol => if at_bol cur then k cur g else None
  | Eol => if at_eol cur then k cur g else None
  end.

End Matcher.

(** A match object: its groups and the position where it ends. *)
Definition match_at (r : regex) (cur : cursor) : option (groups * cursor) :=
  exec (groups * cursor) r cur [] (fun cur' g => Some (g, cur')).

(** [pattern.match(s)] *)
Definition match_ (r : regex) (s : string) : option groups :=
  option_map fst (match_at r (None, s)).

(** [pattern.finditer(s)]: the matches from the left, each one starting
    where the one before ended.  [skip] counts the characters of the last
    match that are still to be passed over. *)
Fixpoint finditer_from (r : regex) (prev : option ascii) (s : string)
    (skip : nat) : list groups :=
  match s with
  | EmptyString =>
      match skip with
      | O =>
          match match_at r (prev, s) with
          | Some (g, _) => [g]
          | None => []
          end
      | S _ => []
      end
  | String c s' =>
      match skip with
      | S n => finditer_from r (Some c) s' n
      | O =>
          match match_at r (prev, s) with
          | Some (g, cur') =>
              g :: finditer_from r (Some c) s'
                     (String.length s - String.length (rest cur') - 1)
          | None => finditer_from r (Some c) s' 0
          end
      end
  end.

Definition finditer (r : regex) (s : string) : list groups :=
  finditer_from r None s 0.

(** *** What a match is

    [matches r cur g cur' g']: read from [cur] with the groups [g], the
    expression [r] can take the text up to [cur'] and leave the groups
    [g'].  The matcher returns one of these ways to match. *)
Inductive matches : regex -> cursor -> groups -> cursor -> groups -> Prop :=
| M_Lit l cur cur' g :
    lit l cur = Some cur' -> matches (Lit l) cur g cur' g
| M_Cls p prev c s g :
    p c = true -> matches (Cls p) (prev, String c s) g (Some c, s) g
| M_Star_stop p cur g :
    matches (Star p) cur g cur g
| M_Star_more p prev c s cur' g :
    p c = true -> matches (Star p) (Some c, s) g cur' g ->
    matches (Star p) (prev, String c s) g cur' g
| M_Cat r1 r2 cur g cur1 g1 cur2 g2 :
    matches r1 cur g cur1 g1 -> matches r2 cur1 g1 cur2 g2 ->
    matches (Cat r1 r2) cur g cur2 g2
| M_Opt_taken r cur g cur' g' :
    matches r cur g cur' g' -> matches (Opt r) cur g cur' g'
| M_Opt_skipped r cur g :
    matches (Opt r) cur g cur g
| M_Grp i r cur g cur' g' :
    matches r cur g cur' g' ->
    matches (Grp i r) cur g cur' ((i, consumed cur cur') :: g')
| M_Bol cur g :
    at_bol cur = true -> matches Bol cur g cur g
| M_Eol cur g :
    at_eol cur = true -> matches Eol cur g cur g.

(** The least number of characters a match of [r] takes. *)
Fixpoint min_len (r : regex) : nat :=
  match r with
  | Lit l => String.length l
  | Cls _ => 1
  | Cat r1 r2 => min_len r1 + min_len r2
  | Grp _ r1 => min_len r1
  | Star _ | Opt _ | Bol | Eol => 0
  end.

(** Group [i] stands outside every optional part of [r]. *)
Fixpoint sets (i : nat) (r : regex) : bool :=
  match r with
  | Grp j r1 => Nat.eqb i j || sets i r1
  | Cat r1 r2 => sets i r1 || sets i r2
  | _ => false
  end.

(** Wherever group [i] stands in [r], it takes one character at least. *)
Fixpoint tight (i : nat) (r : regex) : bool :=
  match r with
  | Grp j r1 => (negb (Nat.eqb i j) || (1 <=? min_len r1)%nat) && tight i r1
  | Cat r1 r2 => tight i r1 && tight i r2
  | Opt r1 => tight i r1
  | _ => true
  end.

End Re.

(** ** Dictionaries and exceptions *)

(** A dictionary with string keys, in insertion order. *)
Definition dict (V : Type) : Type := list (string * V).

(** [d.get(k)]; also [d[k]], where [None] stands for [KeyError]. *)
Fixpoint dict_get {V : Type} (k : string) (d : dict V) : option V :=
  match d with
  | [] => None
  | (k', v) :: d' => if String.eqb k k' then Some v else dict_get k d'
  end.

(** [k in d] *)
Definition dict_mem {V : Type} (k : string) (d : dict V) : bool :=
  match dict_get k d with
  | Some _ => true
  | None => false
  end.

(** [d[k] = v]: a key already present keeps its place. *)
Fixpoint dict_set {V : Type} (k : string) (v : V) (d : dict V) : dict V :=
  match d with
  | [] => [(k, v)]
  | (k', v') :: d' =>
      if String.eqb k k' then (k, v) :: d' else (k', v') :: dict_set k v d'
  end.

Definition keys {V : Type} (d : dict V) : list string := map fst d.

(** A computation that may raise: [None] is the exception. *)
Definition bind {A B : Type} (c : option A) (f : A -> option B) : option B :=
  match c with
  | Some a => f a
  | None => None
  end.

Notation "x <- c ;; k" := (bind c (fun x => k))
  (at level 61, c at next level, right associativity).

(** A loop over [l] that threads a state and stops at the first exception. *)
Fixpoint foldM {S X : Type} (f : S -> X -> option S) (l : list X) (s : S)
    : option S :=
  match l with
  | [] => Some s
  | x :: l' => s' <- f s x ;; foldM f l' s'
  end.

(** ** The data of the generator *)

Inductive kind : Type := class | abstract_class | interface.

Definition kind_eqb (a b : kind) : bool :=
  match a, b with
  | class, class | abstract_class, abstract_class | interface, interface => true
  | _, _ => false
  end.

Module Attribute.
Record t : Type := make { visibility : string; type : string; name : string }.
End Attribute.

Module Method.
Record t : Type := make {
  visibility : string;
  name : string;
  parameters : string;
  return_type : string
}.
End Method.

(** A value of [parsed_elements]. *)
Record element : Type := {
  type : kind;
  attributes : list Attribute.t;
  methods : list Method.t;
  body : string
}.

Record relations : Type := {
  extends : dict string;
  implements : dict (list string)
}.

Definition nl : string := String Re.newline "".

(** ** The five patterns

    Each is preceded by its source text, where the blanks inside a group
    stand for nothing. *)

Module Patterns.
Import Re.

Notation "r1 >> r2" := (Cat r1 r2) (at level 60, right associativity).

Definition one_of (l : string) (c : ascii) : bool :=
  existsb (Ascii.eqb c) (list_ascii_of_string l).

Definition none_of (l : string) (c : ascii) : bool := negb (one_of l c).

(** [(?:(abstract)\s+)?class\s+(\w+)\s*\{( [^}]* )\}] *)
Definition class_pattern : regex :=
  Opt (Grp 1 (Lit "abstract") >> Plus Py.is_space) >>
  Lit "class" >> Plus Py.is_space >> Grp 2 (Plus Py.is_word) >>
  Star Py.is_space >> Lit "{" >> Grp 3 (Star (none_of "}")) >> Lit "}".

(** [interface\s+(\w+)\s*\{( [^}]* )\}] *)
Definition interface_pattern : regex :=
  Lit "interface" >> Plus Py.is_space >> Grp 1 (Plus Py.is_word) >>
  Star Py.is_space >> Lit "{" >> Grp 2 (Star (none_of "}")) >> Lit "}".

(** [^\s*([+\-#~])\s*(\w+)(?:\s*:\s*(\w+))?(?:\(( [^)]* )\))?(?:\s*:\s*(\w+))?$] *)
Definition member_pattern : regex :=
  Bol >> Star Py.is_space >> Grp 1 (Cls (one_of "+-#~")) >>
  Star Py.is_space >> Grp 2 (Plus Py.is_word) >>
  Opt (Star Py.is_space >> Lit ":" >> Star Py.is_space >>
       Grp 3 (Plus Py.is_word)) >>
  Opt (Lit "(" >> Grp 4 (Star (none_of ")")) >> Lit ")") >>
  Opt (Star Py.is_space >> Lit ":" >> Star Py.is_space >>
       Grp 5 (Plus Py.is_word)) >>
  Eol.

(** [(\w+)\s*<\|--\s*(\w+)] *)
Definition inheritance_pattern : regex :=
  Grp 1 (Plus Py.is_word) >> Star Py.is_space >> Lit "<|--" >>
  Star Py.is_space >> Grp 2 (Plus Py.is_word).

(** [(\w+)\s*\.\.\|>\s*(\w+)] *)
Definition implementation_pattern : regex :=
  Grp 1 (Plus Py.is_word) >> Star Py.is_space >> Lit "..|>" >>
  Star Py.is_space >> Grp 2 (Plus Py.is_word).

End Patterns.
Import Patterns.

(** ** Pass 1: classes and interfaces *)

(** The groups outside every optional part always take part in a match; the
    model raises where the source would be handed [None] for one of them. *)
Definition add_class (parsed_elements : dict element) (g : Re.groups)
    : option (dict element) :=
  let is_abstract := Re.group 1 g in
  name <- Re.group 2 g ;;
  body <- Re.group 3 g ;;
  Some (dict_set name
          {| type := match is_abstract with
                     | Some w => if Py.truthy w then abstract_class else class
                     | None => class
                     end;
             attributes := [];
             methods := [];
             body := body |}
          parsed_elements).

Definition add_interface (parsed_elements : dict element) (g : Re.groups)
    : option (dict element) :=
  name <- Re.group 1 g ;;
  body <- Re.group 2 g ;;
  Some (dict_set name
          {| type := interface; attributes := []; methods := []; body := body |}
          parsed_elements).

Definition pass1 (plantuml_content : string) : option (dict element) :=
  classes <- foldM add_class (Re.finditer class_pattern plantuml_content) [] ;;
  foldM add_interface (Re.finditer interface_pattern plantuml_content) classes.

(** ** Pass 2: members *)

Definition java_visibility (visibility_char : option string) : string :=
  match visibility_char with
  | Some c =>
      if String.eqb c "+" then "public"
      else if String.eqb c "-" then "private"
      else if String.eqb c "#" then "protected"
      else if String.eqb c "~" then ""
      else "public"
  | None => "public"
  end.

Definition java_param (p : string) : string :=
  match Py.split ":" (Py.strip p) with
  | [p0; p1] => Py.strip p1 ++ " " ++ Py.strip p0
  | _ => Py.strip p
  end.

Definition java_params (params_str : string) : list string :=
  if Py.truthy params_str then map java_param (Py.split "," params_str)
  else [].

Definition or_default (o : option string) (d : string) : string :=
  match o with
  | Some w => if Py.truthy w then w else d
  | None => d
  end.

(** The body of the loop over the lines of a declaration. *)
Definition parse_member (details : element) (line : string) : option element :=
  match Re.match_ member_pattern (Py.strip line) with
  | None => Some details
  | Some g =>
      let visibility_char := Re.group 1 g in
      member_name <- Re.group 2 g ;;
      let attr_type := Re.group 3 g in
      let params_str := Re.group 4 g in
      let return_type := Re.group 5 g in
      match params_str with
      | Some params_str =>
          Some {| type := type details;
                  attributes := attributes details;
                  methods := (methods details ++
                    [Method.make (java_visibility visibility_char) member_name
                       (Py.join ", " (java_params params_str))
                       (or_default return_type "void")])%list;
                  body := body details |}
      | None =>
          Some {| type := type details;
                  attributes := (attributes details ++
                    [Attribute.make (java_visibility visibility_char)
                       (or_default attr_type "Object") member_name])%list;
                  methods := methods details;
                  body := body details |}
      end
  end.

Definition parse_members (details : element) : option element :=
  foldM parse_member (Py.split Re.newline (body details)) details.

Fixpoint pass2 (parsed_elements : dict element) : option (dict element) :=
  match parsed_elements with
  | [] => Some []
  | (name, details) :: others =>
      details' <- parse_members details ;;
      others' <- pass2 others ;;
      Some ((name, details') :: others')
  end.

(** The declaration table that passes 3 and 4 read. *)
Definition declarations (plantuml_content : string) : option (dict element) :=
  parsed_elements <- pass1 plantuml_content ;;
  pass2 parsed_elements.

(** ** Pass 3: relationships *)

(** A group that is [None] is in no dictionary, so the edge is skipped. *)
Definition add_extends (parsed_elements : dict element) (ext : dict string)
    (g : Re.groups) : dict string :=
  match Re.group 1 g, Re.group 2 g with
  | Some child, Some parent =>
      if dict_mem child parsed_elements && dict_mem parent parsed_elements
      then dict_set child parent ext
      else ext
  | _, _ => ext
  end.

Definition add_implements (parsed_elements : dict element)
    (impl : dict (list string)) (g : Re.groups) : option (dict (list string)) :=
  match Re.group 1 g, Re.group 2 g with
  | Some implementing_class, Some interface_ =>
      if dict_mem implementing_class parsed_elements
         && dict_mem interface_ parsed_elements
      then
        let impl' :=
          if negb (dict_mem implementing_class impl)
          then dict_set implementing_class [] impl
          else impl in
        l <- dict_get implementing_class impl' ;;
        Some (dict_set implementing_class (l ++ [interface_])%list impl')
      else Some impl
  | _, _ => Some impl
  end.

Definition pass3 (plantuml_content : string) (parsed_elements : dict element)
    : option relations :=
  let ext :=
    fold_left (add_extends parsed_elements)
      (Re.finditer inheritance_pattern plantuml_content) [] in
  impl <- foldM (add_implements parsed_elements)
            (Re.finditer implementation_pattern plantuml_content) [] ;;
  Some {| extends := ext; implements := impl |}.

(** ** Pass 4: the Java text of one declaration *)

Section Render.

Variable parsed_elements : dict element.
Variable relationships : relations.
Variable name : string.
Variable details : element.

Definition mentions (w : string) (m : Method.t) : bool :=
  Py.contains w (Method.parameters m) || Py.contains w (Method.return_type m).

(** The imports, and an empty line after them when [f.tell() > 0]. *)
Definition render_imports : string :=
  let date :=
    if existsb (fun attr => String.eqb (Attribute.type attr) "Date")
         (attributes details)
       || existsb (mentions "Date") (methods details)
    then "import java.util.Date;" ++ nl
    else "" in
  let list :=
    if existsb (fun attr => Py.contains "List" (Attribute.type attr))
         (attributes details)
       || existsb (mentions "List") (methods details)
    then "import java.util.List;" ++ nl ++ "import java.util.ArrayList;" ++ nl
    else "" in
  let written := date ++ list in
  if (0 <? String.length written)%nat then written ++ nl else written.

Definition declaration_line : string :=
  match type details with
  | abstract_class => "public abstract class " ++ name
  | class => "public class " ++ name
  | interface => "public interface " ++ name
  end.

Definition extends_clause : option string :=
  if dict_mem name (extends relationships)
  then parent <- dict_get name (extends relationships) ;;
       Some (" extends " ++ parent)
  else Some "".

Definition implements_clause : option string :=
  if dict_mem name (implements relationships)
  then interfaces <- dict_get name (implements relationships) ;;
       Some (" implements " ++ Py.join ", " interfaces)
  else Some "".

(** What [f.write(f"{declaration_line} {{\n")] writes. *)
Definition render_header : option string :=
  ext <- extends_clause ;;
  impl <- implements_clause ;;
  Some (declaration_line ++ ext ++ impl ++ " {" ++ nl).

Definition field_line (attr : Attribute.t) : string :=
  "    " ++ Attribute.visibility attr ++ " " ++ Attribute.type attr ++ " "
  ++ Attribute.name attr ++ ";" ++ nl.

Definition render_fields : string :=
  String.concat "" (map field_line (attributes details))
  ++ match attributes details with
     | [] => ""
     | _ => nl
     end.

Definition param (attr : Attribute.t) : string :=
  Attribute.type attr ++ " " ++ Attribute.name attr.

Definition assignment (attr : Attribute.t) : string :=
  "        this." ++ Attribute.name attr ++ " = " ++ Attribute.name attr
  ++ ";" ++ nl.

Definition assignments : string :=
  String.concat "" (map assignment (attributes details)).

Definition constructor_head (constructor_params : list string) : string :=
  "    public " ++ name ++ "(" ++ Py.join ", " constructor_params ++ ") {"
  ++ nl.

Definition constructor_end : string := "    }" ++ nl ++ nl.

Definition plain_constructor : string :=
  constructor_head (map param (attributes details))
  ++ assignments ++ constructor_end.

Definition render_constructor : option string :=
  if negb (kind_eqb (type details) interface) then
    let constructor_params := map param (attributes details) in
    let parent_class := dict_get name (extends relationships) in
    match parent_class with
    | Some parent_class =>
        if Py.truthy parent_class && dict_mem parent_class parsed_elements
        then
          parent <- dict_get parent_class parsed_elements ;;
          if negb (kind_eqb (type parent) interface) then
            let parent_attrs := attributes parent in
            let parent_constructor_params := map param parent_attrs in
            let constructor_params :=
              (parent_constructor_params ++ constructor_params)%list in
            let super_call_params := map Attribute.name parent_attrs in
            match super_call_params with
            | _ :: _ =>
                Some (constructor_head constructor_params
                      ++ "        super(" ++ Py.join ", " super_call_params
                      ++ ");" ++ nl
                      ++ assignments ++ constructor_end)
            | [] =>
                Some (constructor_head constructor_params
                      ++ assignments ++ constructor_end)
            end
          else Some plain_constructor
        else Some plain_constructor
    | None => Some plain_constructor
    end
  else Some "".

Definition accessor_pair (attr : Attribute.t) : string :=
  if String.eqb (Attribute.visibility attr) "private" then
    ("    public " ++ Attribute.type attr ++ " get"
     ++ Py.capitalize (Attribute.name attr) ++ "() {" ++ nl
     ++ "        return " ++ Attribute.name attr ++ ";" ++ nl
     ++ "    }" ++ nl ++ nl)
    ++ ("    public void set" ++ Py.capitalize (Attribute.name attr) ++ "("
        ++ Attribute.type attr ++ " " ++ Attribute.name attr ++ ") {" ++ nl
        ++ "        this." ++ Attribute.name attr ++ " = "
        ++ Attribute.name attr ++ ";" ++ nl
        ++ "    }" ++ nl ++ nl)
  else "".

Definition render_accessors : string :=
  String.concat "" (map accessor_pair (attributes details)).

Definition rename (m : Method.t) (n : string) : Method.t :=
  Method.make (Method.visibility m) n (Method.parameters m)
    (Method.return_type m).

Definition publish (m : Method.t) : Method.t :=
  Method.make "public" (Method.name m) (Method.parameters m)
    (Method.return_type m).

(** The modifier and the method record after the two tests on the name; the
    record is updated in place in the source, and read by nothing else. *)
Definition method_modifier (m : Method.t) : string * Method.t :=
  let '(modifier, m) :=
    if kind_eqb (type details) abstract_class
       && String.eqb (Method.visibility m) "public"
       && Py.contains "abstract" (Py.lower (Method.name m))
    then ("abstract ",
          rename m (Py.strip (Py.replace "{abstract}" "" (Method.name m))))
    else if kind_eqb (type details) interface
    then ("", publish m)
    else ("", m) in
  if Py.contains "{static}" (Py.lower (Method.name m))
  then (modifier ++ "static ",
        rename m (Py.strip (Py.replace "{static}" "" (Method.name m))))
  else (modifier, m).

Definition render_method (m : Method.t) : string :=
  let '(modifier, m) := method_modifier m in
  ("    " ++ Method.visibility m ++ " " ++ modifier ++ Method.return_type m
   ++ " " ++ Method.name m ++ "(" ++ Method.parameters m ++ ")")
  ++ if kind_eqb (type details) interface
        || String.eqb (Py.strip modifier) "abstract"
     then ";" ++ nl ++ nl
     else " {" ++ nl
          ++ "        // TODO: Implement method logic" ++ nl
          ++ (if negb (String.eqb (Method.return_type m) "void")
              then "        return default" ++ Method.return_type m
                   ++ "Value(); // Placeholder return" ++ nl
              else "")
          ++ "    }" ++ nl ++ nl.

Definition render_methods : string :=
  String.concat "" (map render_method (methods details)).

(** Everything written to [<name>.java], in the order of the writes. *)
Definition render : option string :=
  header <- render_header ;;
  constructor <- render_constructor ;;
  Some (render_imports ++ header ++ render_fields ++ constructor
        ++ render_accessors ++ render_methods ++ "}" ++ nl).

End Render.

Definition write_file (parsed_elements : dict element)
    (relationships : relations) (files : dict string)
    (item : string * element) : option (dict string) :=
  let (name, details) := item in
  text <- render parsed_elements relationships name details ;;
  Some (dict_set name text files).

Definition pass4 (parsed_elements : dict element) (relationships : relations)
    : option (dict string) :=
  foldM (write_file parsed_elements relationships) parsed_elements [].

(** The relationship table that pass 4 reads. *)
Definition relationships_of (plantuml_content : string) : option relations :=
  parsed_elements <- declarations plantuml_content ;;
  pass3 plantuml_content parsed_elements.

(** The generator: the files it writes, by declared name. *)
Definition generate_java_code_from_plantuml (plantuml_content : string)
    : option (dict string) :=
  parsed_elements <- declarations plantuml_content ;;
  relationships <- pass3 plantuml_content parsed_elements ;;
  pass4 parsed_elements relationships.

(** ** Notions the lemmas and the statements are written with *)

(** The keys of a declaration table are distinct, as in any dictionary. *)
Definition proper {V : Type} (d : dict V) : Prop := NoDup (keys d).

(** The invariant of the two tables of pass 3: both ends of every entry are
    declared names. *)
Definition extends_ok (parsed_elements : dict element) (ext : dict string)
    : Prop :=
  forall child parent,
    In (child, parent) ext ->
    dict_mem child parsed_elements = true
    /\ dict_mem parent parsed_elements = true.

Definition implements_ok (parsed_elements : dict element)
    (impl : dict (list string)) : Prop :=
  forall implementing_class interfaces,
    In (implementing_class, interfaces) impl ->
    dict_mem implementing_class parsed_elements = true
    /\ forall i, In i interfaces -> dict_mem i parsed_elements = true.

(** The right ends of the realization edges among [l] that start at [name]
    and have both ends declared, in the order of the matches. *)
Definition edges_from (parsed_elements : dict element) (l : list Re.groups)
    (name : string) : list string :=
  flat_map
    (fun g =>
       match Re.group 1 g, Re.group 2 g with
       | Some implementing_class, Some interface_ =>
           if dict_mem implementing_class parsed_elements
              && dict_mem interface_ parsed_elements
              && String.eqb implementing_class name
           then [interface_]
           else []
       | _, _ => []
       end) l.

(** The same over the realization edges of a text. *)
Definition realizations (parsed_elements : dict element) (text name : string)
    : list string :=
  edges_from parsed_elements (Re.finditer implementation_pattern text) name.

(** The entry of a name after the edges [new] were appended to it. *)
Definition extended (prior : option (list string)) (new : list string)
    : option (list string) :=
  match new with
  | [] => prior
  | _ => Some (match prior with Some l => l | None => [] end ++ new)%list
  end.

(** Each line of [l] followed by a line feed. *)
Definition unlines (l : list string) : string :=
  String.concat "" (map (fun line => line ++ nl) l).

(** The keyword of a kind in the header. *)
Definition keyword (k : kind) : string :=
  match k with
  | abstract_class => "public abstract class "
  | class => "public class "
  | interface => "public interface "
  end.

(** The scenario of the specification, with the edge written the way the
    source reads it: the child on the left. *)
Module Scenario.

Definition text : string :=
  unlines ["abstract class Person { - name: String }";
           "class Student { - id: String }";
           "Student <|-- Person"].

Definition person : element :=
  {| type := abstract_class;
     attributes := [Attribute.make "private" "String" "name"];
     methods := [];
     body := " - name: String " |}.

Definition student : element :=
  {| type := class;
     attributes := [Attribute.make "private" "String" "id"];
     methods := [];
     body := " - id: String " |}.

Definition parsed_elements : dict element :=
  [("Person", person); ("Student", student)].

Definition relationships : relations :=
  {| extends := [("Student", "Person")]; implements := [] |}.

Definition person_java : string :=
  unlines ["public abstract class Person {";
           "    private String name;";
           "";
           "    public Person(String name) {";
           "        this.name = name;";
           "    }";
           "";
           "    public String getName() {";
           "        return name;";
           "    }";
           "";
           "    public void setName(String name) {";
           "        this.name = name;";
           "    }";
           "";
           "}"].

Definition student_java : string :=
  unlines ["public class Student extends Person {";
           "    private String id;";
           "";
           "    public Student(String name, String id) {";
           "        super(name);";
           "        this.id = id;";
           "    }";
           "";
           "    public String getId() {";
           "        return id;";
           "    }";
           "";
           "    public void setId(String id) {";
           "        this.id = id;";
           "    }";
           "";
           "}"].

Definition files : dict string :=
  [("Person", person_java); ("Student", student_java)].

End Scenario.

(** Three declarations and three realization edges, one of them from an
    interface. *)
Module Realization.

Definition text : string :=
  unlines ["interface Shape {"; "}"; "interface Drawable {"; "}";
           "class Circle {"; "}";
           "Circle ..|> Shape"; "Circle ..|> Drawable"; "Shape ..|> Drawable"].

Definition empty (k : kind) : element :=
  {| type := k; attributes := []; methods := []; body := nl |}.

Definition parsed_elements : dict element :=
  [("Circle", empty class); ("Shape", empty interface);
   ("Drawable", empty interface)].

Definition relationships : relations :=
  {| extends := [];
     implements := [("Circle", ["Shape"; "Drawable"]); ("Shape", ["Drawable"])] |}.

Definition files : dict string :=
  [("Circle",
    unlines ["public class Circle implements Shape, Drawable {";
             "    public Circle() {";
             "    }";
             "";
             "}"]);
   ("Shape", unlines ["public interface Shape implements Drawable {"; "}"]);
   ("Drawable", unlines ["public interface Drawable {"; "}"])].

End Realization.

(** ** Notions of the further properties *)

(** Every character of [s] is in the class [p]. *)
Fixpoint every (p : ascii -> bool) (s : string) : bool :=
  match s with
  | EmptyString => true
  | String c s' => p c && every p s'
  end.

(** The characters a match of [r] can take. *)
Fixpoint chars (r : Re.regex) (c : ascii) : bool :=
  match r with
  | Re.Lit l => Patterns.one_of l c
  | Re.Cls p | Re.Star p => p c
  | Re.Cat r1 r2 => chars r1 c || chars r2 c
  | Re.Opt r1 | Re.Grp _ r1 => chars r1 c
  | Re.Bol | Re.Eol => false
  end.

(** Wherever group [i] stands in [r], it takes characters of [q] only. *)
Fixpoint group_in (i : nat) (q : ascii -> bool) (r : Re.regex) : Prop :=
  match r with
  | Re.Grp j r1 =>
      (i = j -> forall c, chars r1 c = true -> q c = true) /\ group_in i q r1
  | Re.Cat r1 r2 => group_in i q r1 /\ group_in i q r2
  | Re.Opt r1 => group_in i q r1
  | _ => True
  end.

(** A name as the patterns take it: one word character at least. *)
Definition word (s : string) : Prop :=
  s <> "" /\ every Py.is_word s = true.

(** Group [i] stands nowhere in [r]. *)
Fixpoint free (i : nat) (r : Re.regex) : bool :=
  match r with
  | Re.Grp j r1 => negb (Nat.eqb i j) && free i r1
  | Re.Cat r1 r2 => free i r1 && free i r2
  | Re.Opt r1 => free i r1
  | _ => true
  end.

(** The four visibilities pass 2 writes; the empty one is package-private. *)
Definition visibilities : list string := ["public"; "private"; "protected"; ""].

Definition attribute_ok (attr : Attribute.t) : Prop :=
  In (Attribute.visibility attr) visibilities
  /\ word (Attribute.type attr) /\ word (Attribute.name attr).

Definition method_ok (m : Method.t) : Prop :=
  In (Method.visibility m) visibilities
  /\ word (Method.name m) /\ word (Method.return_type m).

(** What pass 1 leaves in every entry of the table: a name that is a word, a
    body without closing brace, and no member yet. *)
Definition fresh_ok (item : string * element) : Prop :=
  word (fst item)
  /\ every (none_of "}") (body (snd item)) = true
  /\ attributes (snd item) = [] /\ methods (snd item) = [].

(** What holds of every entry of the declaration table. *)
Definition declaration_ok (item : string * element) : Prop :=
  word (fst item)
  /\ every (none_of "}") (body (snd item)) = true
  /\ Forall attribute_ok (attributes (snd item))
  /\ Forall method_ok (methods (snd item)).

(** The first line of a rendered method, up to the closing parenthesis. *)
Definition signature (visibility modifier : string) (m : Method.t) : string :=
  "    " ++ visibility ++ " " ++ modifier ++ Method.return_type m ++ " "
  ++ Method.name m ++ "(" ++ Method.parameters m ++ ")".

(** The placeholder body of a rendered method. *)
Definition placeholder (m : Method.t) : string :=
  " {" ++ nl
  ++ "        // TODO: Implement method logic" ++ nl
  ++ (if negb (String.eqb (Method.return_type m) "void")
      then "        return default" ++ Method.return_type m
           ++ "Value(); // Placeholder return" ++ nl
      else "")
  ++ "    }" ++ nl ++ nl.

(** A diagram with an abstract class, a class and an interface, and two
    relationship edges. *)
Module Shapes.

Definition text : string :=
  unlines ["interface Shape {";
           "  - sides: int";
           "  - area(): double";
           "}";
           "abstract class Figure {";
           "  + isAbstract(): boolean";
           "  # scale(factor: double, origin)";
           "}";
           "class Circle {";
           "  ~ radius";
           "}";
           "Circle <|-- Shape";
           "Circle ..|> Shape"].

Definition shape : element :=
  {| type := interface;
     attributes := [Attribute.make "private" "int" "sides"];
     methods := [Method.make "private" "area" "" "double"];
     body := nl ++ unlines ["  - sides: int"; "  - area(): double"] |}.

Definition figure : element :=
  {| type := abstract_class;
     attributes := [];
     methods := [Method.make "public" "isAbstract" "" "boolean";
                 Method.make "protected" "scale" "double factor, origin"
                   "void"];
     body := nl ++ unlines ["  + isAbstract(): boolean";
                            "  # scale(factor: double, origin)"] |}.

Definition circle : element :=
  {| type := class;
     attributes := [Attribute.make "" "Object" "radius"];
     methods := [];
     body := nl ++ unlines ["  ~ radius"] |}.

Definition parsed_elements : dict element :=
  [("Figure", figure); ("Circle", circle); ("Shape", shape)].

Definition relationships : relations :=
  {| extends := [("Circle", "Shape")]; implements := [("Circle", ["Shape"])] |}.

Definition figure_java : string :=
  unlines ["public abstract class Figure {";
           "    public Figure() {";
           "    }";
           "";
           "    public abstract boolean isAbstract();";
           "";
           "    protected void scale(double factor, origin) {";
           "        // TODO: Implement method logic";
           "    }";
           "";
           "}"].

Definition circle_java : string :=
  unlines ["public class Circle extends Shape implements Shape {";
           "     Object radius;";
           "";
           "    public Circle(Object radius) {";
           "        this.radius = radius;";
           "    }";
           "";
           "}"].

Definition shape_java : string :=
  unlines ["public interface Shape {";
           "    private int sides;";
           "";
           "    public int getSides() {";
           "        return sides;";
           "    }";
           "";
           "    public void setSides(int sides) {";
           "        this.sides = sides;";
           "    }";
           "";
           "    public double area();";
           "";
           "}"].

Definition files : dict string :=
  [("Figure", figure_java); ("Circle", circle_java); ("Shape", shape_java)].

End Shapes.

(** The number of occurrences of [c] in [s]. *)
Fixpoint count (c : ascii) (s : string) : nat :=
  match s with
  | EmptyString => 0
  | String d s' => (if Ascii.eqb d c then 1 else 0) + count c s'
  end.

(** What pass 1 records for a match of the class pattern with body [b]. *)
Definition class_entry (g : Re.groups) (b : string) : element :=
  {| type := match Re.group 1 g with
             | Some _ => abstract_class
             | None => class
             end;
     attributes := [];
     methods := [];
     body := b |}.

(** The character before the position reached after [w]. *)
Fixpoint last_prev (prev : option ascii) (w : string) : option ascii :=
  match w with
  | EmptyString => prev
  | String c w' => last_prev (Some c) w'
  end.

(** A run of [p] cannot go on into [r]. *)
Definition stops (p : ascii -> bool) (r : string) : Prop :=
  match r with
  | EmptyString => True
  | String c _ => p c = false
  end.

(** * Properties *)

(** ** Strings *)

Lemma append_assoc (a b c : string) : (a ++ b) ++ c = a ++ b ++ c.
Proof. induction a as [| x a IH]; simpl; [reflexivity | now rewrite IH]. Qed.

(** ** The matcher returns matches *)

Module ReFacts.
Import Re.

Lemma star_sound (A : Type) (p : ascii -> bool) (g : groups)
    (k : cursor -> option A) (s : string) :
  forall prev a,
    star A p prev s k = Some a ->
    exists cur', matches (Star p) (prev, s) g cur' g /\ k cur' = Some a.
Proof.
  induction s as [| c s IH]; intros prev a H; simpl in H.
  - exists (prev, ""). split; [constructor | exact H].
  - destruct (p c) eqn:Hp.
    + destruct (star A p (Some c) s k) as [a' |] eqn:Hs.
      * injection H as <-.
        destruct (IH _ _ Hs) as (cur' & Hm & Hk).
        exists cur'. split; [now apply M_Star_more | exact Hk].
      * exists (prev, String c s). split; [constructor | exact H].
    + exists (prev, String c s). split; [constructor | exact H].
Qed.

Lemma exec_sound (A : Type) (r : regex) :
  forall cur g (k : cursor -> groups -> option A) a,
    exec A r cur g k = Some a ->
    exists cur' g', matches r cur g cur' g' /\ k cur' g' = Some a.
Proof.
  induction r as [l | p | p | r1 IH1 r2 IH2 | r IH | i r IH | |];
    intros cur g k a H; simpl in H.
  - destruct (lit l cur) as [cur' |] eqn:Hl; [| discriminate].
    exists cur', g. split; [now constructor | exact H].
  - destruct cur as [prev s]; simpl in H.
    destruct s as [| c s]; [discriminate |].
    destruct (p c) eqn:Hp; [| discriminate].
    exists (Some c, s), g. split; [now constructor | exact H].
  - destruct cur as [prev s]; simpl in H.
    destruct (star_sound A p g _ s prev a H) as (cur' & Hm & Hk).
    now exists cur', g.
  - destruct (IH1 _ _ _ _ H) as (cur1 & g1 & Hm1 & H1).
    destruct (IH2 _ _ _ _ H1) as (cur2 & g2 & Hm2 & H2).
    exists cur2, g2. split; [now apply M_Cat with cur1 g1 | exact H2].
  - destruct (exec A r cur g k) as [a' |] eqn:He.
    + injection H as <-.
      destruct (IH _ _ _ _ He) as (cur' & g' & Hm & Hk).
      exists cur', g'. split; [now apply M_Opt_taken | exact Hk].
    + exists cur, g. split; [apply M_Opt_skipped | exact H].
  - destruct (IH _ _ _ _ H) as (cur' & g' & Hm & Hk).
    exists cur', ((i, consumed cur cur') :: g'). split; [now constructor | exact Hk].
  - destruct (at_bol cur) eqn:Hb; [| discriminate].
    exists cur, g. split; [now constructor | exact H].
  - destruct (at_eol cur) eqn:Hb; [| discriminate].
    exists cur, g. split; [now constructor | exact H].
Qed.

Lemma match_at_sound (r : regex) (cur cur' : cursor) (g : groups) :
  match_at r cur = Some (g, cur') -> matches r cur [] cur' g.
Proof.
  unfold match_at. intros H.
  destruct (exec_sound _ _ _ _ _ _ H) as (c & g' & Hm & Hk).
  now injection Hk as <- <-.
Qed.

Lemma lit_length (l : string) :
  forall cur cur',
    lit l cur = Some cur' ->
    String.length (rest cur') + String.length l = String.length (rest cur).
Proof.
  induction l as [| c l IH]; intros [prev s] cur' H; simpl in H.
  - injection H as <-. simpl. lia.
  - destruct s as [| d s]; [discriminate |].
    destruct (Ascii.eqb c d); [| discriminate].
    apply IH in H. simpl in *. lia.
Qed.

Lemma matches_length (r : regex) (cur cur' : cursor) (g g' : groups) :
  matches r cur g cur' g' ->
  String.length (rest cur') + min_len r <= String.length (rest cur).
Proof.
  induction 1; simpl in *; try lia.
  apply lit_length in H. lia.
Qed.

Lemma consumed_nonempty (cur cur' : cursor) (n : nat) :
  String.length (rest cur') + n <= String.length (rest cur) ->
  1 <= n -> consumed cur cur' <> "".
Proof.
  unfold consumed. intros H Hn.
  destruct (rest cur) as [| c s]; [simpl in H; lia |].
  remember (String.length (String c s) - String.length (rest cur')) as m eqn:E.
  change (String.length (String c s)) with (S (String.length s)) in H, E.
  destruct m as [| m]; [lia | simpl; discriminate].
Qed.

(** A group outside every optional part took part in the match. *)
Lemma matches_sets (i : nat) (r : regex) (cur cur' : cursor) (g g' : groups) :
  matches r cur g cur' g' ->
  sets i r = true \/ group i g <> None -> group i g' <> None.
Proof.
  induction 1; simpl; intros [Hs | Hg]; try discriminate; auto.
  - apply orb_true_iff in Hs as [Hs | Hs]; auto.
  - apply orb_true_iff in Hs as [Hs | Hs].
    + now rewrite Hs.
    + destruct (Nat.eqb i i0); [discriminate | auto].
  - destruct (Nat.eqb i i0); [discriminate | auto].
Qed.

(** A group that takes one character at least is never the empty text. *)
Lemma matches_tight (i : nat) (r : regex) (cur cur' : cursor) (g g' : groups) :
  matches r cur g cur' g' ->
  tight i r = true ->
  (forall w, group i g = Some w -> w <> "") ->
  forall w, group i g' = Some w -> w <> "".
Proof.
  induction 1; cbn [tight group]; intros Ht Hg w Hw; eauto.
  - apply andb_true_iff in Ht as [Ht1 Ht2]. eauto.
  - apply andb_true_iff in Ht as [Ht1 Ht2].
    destruct (Nat.eqb i i0) eqn:E.
    + injection Hw as <-. cbn [negb orb] in Ht1. apply Nat.leb_le in Ht1.
      eapply consumed_nonempty; [eapply matches_length; eassumption | exact Ht1].
    + eauto.
Qed.

Lemma match_at_group (i : nat) (r : regex) (cur cur' : cursor) (g : groups) :
  match_at r cur = Some (g, cur') -> sets i r = true ->
  exists w, group i g = Some w.
Proof.
  intros H Hs. apply match_at_sound in H.
  pose proof (matches_sets i _ _ _ _ _ H (or_introl Hs)) as Hg.
  destruct (group i g) as [w |]; [now exists w | contradiction].
Qed.

Lemma match_at_name (i : nat) (r : regex) (cur cur' : cursor) (g : groups) :
  match_at r cur = Some (g, cur') -> sets i r = true -> tight i r = true ->
  exists w, group i g = Some w /\ w <> "".
Proof.
  intros H Hs Ht. destruct (match_at_group i _ _ _ _ H Hs) as (w & Hw).
  exists w. split; [exact Hw |].
  apply match_at_sound in H.
  eapply matches_tight; try eassumption. discriminate.
Qed.

(** Every element of [finditer] is a match somewhere in the subject. *)
Lemma finditer_from_sound (r : regex) (g : groups) (s : string) :
  forall prev skip,
    In g (finditer_from r prev s skip) ->
    exists cur cur', match_at r cur = Some (g, cur').
Proof.
  induction s as [| c s IH]; intros prev skip H; simpl in H.
  - destruct skip; [| contradiction].
    destruct (match_at r (prev, "")) as [[g0 cur'] |] eqn:E; [| contradiction].
    destruct H as [<- | []]. eauto.
  - destruct skip as [| n]; [| eauto].
    destruct (match_at r (prev, String c s)) as [[g0 cur'] |] eqn:E; [| eauto].
    destruct H as [<- | H]; eauto.
Qed.

Lemma finditer_sound (r : regex) (g : groups) (s : string) :
  In g (finditer r s) -> exists cur cur', match_at r cur = Some (g, cur').
Proof. apply finditer_from_sound. Qed.

Lemma match_sound (r : regex) (g : groups) (s : string) :
  match_ r s = Some g -> exists cur', match_at r (None, s) = Some (g, cur').
Proof.
  unfold match_. destruct (match_at r (None, s)) as [[g0 cur'] |]; simpl;
    [| discriminate].
  intros H. injection H as <-. eauto.
Qed.

End ReFacts.

(** ** Dictionaries *)

Section DictFacts.

Context {V : Type}.

Lemma dict_get_set_same (k : string) (v : V) (d : dict V) :
  dict_get k (dict_set k v d) = Some v.
Proof.
  induction d as [| [k' v'] d IH]; simpl.
  - now rewrite String.eqb_refl.
  - destruct (String.eqb k k') eqn:E; simpl.
    + now rewrite String.eqb_refl.
    + now rewrite E.
Qed.

Lemma dict_get_set_other (k k' : string) (v : V) (d : dict V) :
  k <> k' -> dict_get k (dict_set k' v d) = dict_get k d.
Proof.
  intros Hk. apply String.eqb_neq in Hk.
  induction d as [| [k0 v0] d IH]; simpl.
  - now rewrite Hk.
  - destruct (String.eqb k' k0) eqn:E; simpl.
    + apply String.eqb_eq in E. subst k0. now rewrite Hk.
    + now rewrite IH.
Qed.

Lemma dict_mem_get (k : string) (d : dict V) :
  dict_mem k d = true -> exists v, dict_get k d = Some v.
Proof.
  unfold dict_mem. destruct (dict_get k d) as [v |]; [eauto | discriminate].
Qed.

Lemma dict_get_mem (k : string) (v : V) (d : dict V) :
  dict_get k d = Some v -> dict_mem k d = true.
Proof. unfold dict_mem. now intros ->. Qed.

Lemma dict_mem_set (k k' : string) (v : V) (d : dict V) :
  dict_mem k (dict_set k' v d) = String.eqb k k' || dict_mem k d.
Proof.
  unfold dict_mem. destruct (String.eqb k k') eqn:E.
  - apply String.eqb_eq in E. subst. now rewrite dict_get_set_same.
  - apply String.eqb_neq in E. now rewrite dict_get_set_other.
Qed.

Lemma dict_get_In (k : string) (v : V) (d : dict V) :
  dict_get k d = Some v -> In (k, v) d.
Proof.
  induction d as [| [k' v'] d IH]; simpl; [discriminate |].
  destruct (String.eqb k k') eqn:E.
  - apply String.eqb_eq in E. intros H. injection H as <-. subst. now left.
  - auto.
Qed.

Lemma In_dict_set (k k' : string) (v v' : V) (d : dict V) :
  In (k, v) (dict_set k' v' d) -> (k, v) = (k', v') \/ In (k, v) d.
Proof.
  induction d as [| [k0 v0] d IH]; simpl.
  - intros [H | []]. now left.
  - destruct (String.eqb k' k0); simpl; intros [H | H]; auto.
    destruct (IH H); auto.
Qed.

Lemma keys_dict_set (k : string) (v : V) (d : dict V) :
  keys (dict_set k v d) = if dict_mem k d then keys d else (keys d ++ [k])%list.
Proof.
  unfold dict_mem. induction d as [| [k' v'] d IH]; simpl; [reflexivity |].
  destruct (String.eqb k k') eqn:E; simpl.
  - apply String.eqb_eq in E. now subst.
  - rewrite IH. now destruct (dict_get k d).
Qed.

Lemma dict_mem_keys (k : string) (d : dict V) :
  dict_mem k d = true <-> In k (keys d).
Proof.
  unfold dict_mem. induction d as [| [k' v'] d IH]; simpl.
  - split; [discriminate | contradiction].
  - destruct (String.eqb k k') eqn:E.
    + apply String.eqb_eq in E. subst. split; auto.
    + apply String.eqb_neq in E. rewrite IH. split; [auto |].
      intros [H | H]; [congruence | exact H].
Qed.

Lemma NoDup_keys_set (k : string) (v : V) (d : dict V) :
  NoDup (keys d) -> NoDup (keys (dict_set k v d)).
Proof.
  intros H. rewrite keys_dict_set. destruct (dict_mem k d) eqn:E; [exact H |].
  apply NoDup_app; [exact H | repeat constructor; auto |].
  intros x Hx [<- | []]. apply dict_mem_keys in Hx. congruence.
Qed.

(** In a dictionary the entry of a key is found by [dict_get]. *)
Lemma In_dict_get (k : string) (v : V) (d : dict V) :
  NoDup (keys d) -> In (k, v) d -> dict_get k d = Some v.
Proof.
  induction d as [| [k' v'] d IH]; simpl; [contradiction |].
  intros Hn [H | H].
  - injection H as -> ->. now rewrite String.eqb_refl.
  - inversion Hn as [| ? ? Hk Hd]; subst.
    destruct (String.eqb k k') eqn:E.
    + apply String.eqb_eq in E. subst. exfalso. apply Hk.
      change k' with (fst (k', v)). now apply in_map.
    + auto.
Qed.

End DictFacts.

(** ** Loops *)

Lemma foldM_invariant {S X : Type} (P : S -> Prop) (f : S -> X -> option S)
    (l : list X) :
  (forall s x, In x l -> P s -> exists s', f s x = Some s' /\ P s') ->
  forall s, P s -> exists s', foldM f l s = Some s' /\ P s'.
Proof.
  induction l as [| x l IH]; intros Hf s Hs; simpl.
  - eauto.
  - destruct (Hf s x (or_introl eq_refl) Hs) as (s1 & -> & H1). simpl.
    apply IH; [| exact H1]. intros s0 y Hy. apply Hf. now right.
Qed.

Lemma fold_left_invariant {S X : Type} (P : S -> Prop) (f : S -> X -> S)
    (l : list X) :
  (forall s x, In x l -> P s -> P (f s x)) ->
  forall s, P s -> P (fold_left f l s).
Proof.
  induction l as [| x l IH]; intros Hf s Hs; simpl; [exact Hs |].
  apply IH; [intros s0 y Hy; apply Hf; now right |].
  apply Hf; [now left | exact Hs].
Qed.

(** ** Passes 1 and 2 never raise *)

Lemma class_match_groups (text : string) (g : Re.groups) :
  In g (Re.finditer class_pattern text) ->
  exists name body,
    Re.group 2 g = Some name /\ name <> "" /\ Re.group 3 g = Some body.
Proof.
  intros H. apply ReFacts.finditer_sound in H as (cur & cur' & H).
  destruct (ReFacts.match_at_name 2 _ _ _ _ H eq_refl eq_refl) as (name & Hn & Hne).
  destruct (ReFacts.match_at_group 3 _ _ _ _ H eq_refl) as (body & Hb).
  now exists name, body.
Qed.

Lemma interface_match_groups (text : string) (g : Re.groups) :
  In g (Re.finditer interface_pattern text) ->
  exists name body,
    Re.group 1 g = Some name /\ name <> "" /\ Re.group 2 g = Some body.
Proof.
  intros H. apply ReFacts.finditer_sound in H as (cur & cur' & H).
  destruct (ReFacts.match_at_name 1 _ _ _ _ H eq_refl eq_refl) as (name & Hn & Hne).
  destruct (ReFacts.match_at_group 2 _ _ _ _ H eq_refl) as (body & Hb).
  now exists name, body.
Qed.

Lemma edge_match_groups (r : Re.regex) (text : string) (g : Re.groups) :
  Re.sets 2 r = true -> Re.tight 2 r = true ->
  In g (Re.finditer r text) ->
  exists parent, Re.group 2 g = Some parent /\ parent <> "".
Proof.
  intros Hs Ht H. apply ReFacts.finditer_sound in H as (cur & cur' & H).
  exact (ReFacts.match_at_name 2 _ _ _ _ H Hs Ht).
Qed.

Lemma member_match_groups (line : string) (g : Re.groups) :
  Re.match_ member_pattern line = Some g ->
  exists visibility_char member_name,
    Re.group 1 g = Some visibility_char /\ Re.group 2 g = Some member_name.
Proof.
  intros H. apply ReFacts.match_sound in H as (cur' & H).
  destruct (ReFacts.match_at_group 1 _ _ _ _ H eq_refl) as (v & Hv).
  destruct (ReFacts.match_at_group 2 _ _ _ _ H eq_refl) as (n & Hn).
  now exists v, n.
Qed.

Lemma pass1_total (text : string) :
  exists parsed_elements, pass1 text = Some parsed_elements /\ proper parsed_elements.
Proof.
  unfold pass1.
  destruct (foldM_invariant proper add_class (Re.finditer class_pattern text))
    with (s := @nil (string * element)) as (classes & -> & Hc).
  - intros s g Hg Hs.
    destruct (class_match_groups _ _ Hg) as (name & body & Hn & _ & Hb).
    unfold add_class. rewrite Hn, Hb. simpl.
    eexists. split; [reflexivity | now apply NoDup_keys_set].
  - constructor.
  - simpl. apply foldM_invariant; [| exact Hc].
    intros s g Hg Hs.
    destruct (interface_match_groups _ _ Hg) as (name & body & Hn & _ & Hb).
    unfold add_interface. rewrite Hn, Hb. simpl.
    eexists. split; [reflexivity | now apply NoDup_keys_set].
Qed.

Lemma parse_member_total (details : element) (line : string) :
  exists details',
    parse_member details line = Some details' /\ type details' = type details.
Proof.
  unfold parse_member.
  destruct (Re.match_ member_pattern (Py.strip line)) as [g |] eqn:E; [| eauto].
  destruct (member_match_groups _ _ E) as (v & n & _ & ->). simpl.
  destruct (Re.group 4 g); eauto.
Qed.

Lemma parse_members_total (details : element) :
  exists details',
    parse_members details = Some details' /\ type details' = type details.
Proof.
  unfold parse_members.
  apply (foldM_invariant (fun d => type d = type details)); [| reflexivity].
  intros d line _ Hd.
  destruct (parse_member_total d line) as (d' & H & Ht).
  exists d'. split; [exact H | congruence].
Qed.

Lemma pass2_total (parsed_elements : dict element) :
  exists parsed', pass2 parsed_elements = Some parsed'.
Proof.
  induction parsed_elements as [| [name details] others (others' & IH)]; simpl.
  - eauto.
  - destruct (parse_members_total details) as (details' & -> & _). simpl.
    rewrite IH. simpl. eauto.
Qed.

Lemma pass2_keys (parsed_elements parsed' : dict element) :
  pass2 parsed_elements = Some parsed' -> keys parsed' = keys parsed_elements.
Proof.
  revert parsed'.
  induction parsed_elements as [| [name details] others IH]; simpl; intros p H.
  - now injection H as <-.
  - destruct (parse_members details) as [details' |]; [| discriminate].
    simpl in H. destruct (pass2 others) as [others' |]; [| discriminate].
    simpl in H. injection H as <-. simpl. f_equal. now apply IH.
Qed.

Lemma pass2_get (parsed_elements parsed' : dict element) (name : string) :
  pass2 parsed_elements = Some parsed' ->
  dict_get name parsed' =
  match dict_get name parsed_elements with
  | Some details => parse_members details
  | None => None
  end.
Proof.
  revert parsed'.
  induction parsed_elements as [| [name0 details] others IH]; simpl; intros p H.
  - now injection H as <-.
  - destruct (parse_members details) as [details' |] eqn:E; [| discriminate].
    simpl in H. destruct (pass2 others) as [others' |]; [| discriminate].
    simpl in H. injection H as <-. simpl.
    destruct (String.eqb name name0); [now rewrite E | now apply IH].
Qed.

Lemma declarations_total (text : string) :
  exists parsed_elements,
    declarations text = Some parsed_elements /\ proper parsed_elements.
Proof.
  unfold declarations.
  destruct (pass1_total text) as (p1 & -> & Hp). simpl.
  destruct (pass2_total p1) as (p2 & H2). exists p2. split; [exact H2 |].
  unfold proper. now rewrite (pass2_keys _ _ H2).
Qed.

(** ** Pass 3 *)

Lemma add_extends_ok (parsed_elements : dict element) (ext : dict string)
    (g : Re.groups) :
  extends_ok parsed_elements ext ->
  extends_ok parsed_elements (add_extends parsed_elements ext g).
Proof.
  intros H. unfold add_extends.
  destruct (Re.group 1 g) as [child |]; [| exact H].
  destruct (Re.group 2 g) as [parent |]; [| exact H].
  destruct (dict_mem child parsed_elements) eqn:Ec; [| exact H].
  destruct (dict_mem parent parsed_elements) eqn:Ep; [| exact H].
  simpl. intros c p Hin. apply In_dict_set in Hin as [Heq | Hin]; [| now apply H].
  injection Heq as -> ->. now split.
Qed.

Lemma add_implements_ok (parsed_elements : dict element)
    (impl : dict (list string)) (g : Re.groups) :
  implements_ok parsed_elements impl ->
  exists impl',
    add_implements parsed_elements impl g = Some impl'
    /\ implements_ok parsed_elements impl'.
Proof.
  intros H. unfold add_implements.
  destruct (Re.group 1 g) as [c |]; [| eauto].
  destruct (Re.group 2 g) as [i |]; [| eauto].
  destruct (dict_mem c parsed_elements) eqn:Ec; [| simpl; eauto].
  destruct (dict_mem i parsed_elements) eqn:Ei; [| simpl; eauto].
  simpl.
  set (impl1 := if negb (dict_mem c impl) then dict_set c [] impl else impl).
  assert (H1 : implements_ok parsed_elements impl1).
  { unfold impl1. destruct (dict_mem c impl); simpl; [exact H |].
    intros c0 l0 Hin. apply In_dict_set in Hin as [Heq | Hin]; [| now apply H].
    injection Heq as -> ->. split; [exact Ec | contradiction]. }
  assert (Hget : exists l, dict_get c impl1 = Some l).
  { unfold impl1. destruct (dict_mem c impl) eqn:Em; simpl.
    - now apply dict_mem_get.
    - exists []. apply dict_get_set_same. }
  destruct Hget as (l & Hl). rewrite Hl. simpl.
  eexists. split; [reflexivity |].
  intros c0 l0 Hin. apply In_dict_set in Hin as [Heq | Hin]; [| now apply H1].
  injection Heq as -> ->. split; [exact Ec |].
  intros j Hj. apply in_app_or in Hj as [Hj | [<- | []]]; [| exact Ei].
  apply dict_get_In in Hl. now apply (H1 _ _ Hl).
Qed.

Lemma pass3_total (text : string) (parsed_elements : dict element) :
  exists relationships,
    pass3 text parsed_elements = Some relationships
    /\ extends_ok parsed_elements (extends relationships)
    /\ implements_ok parsed_elements (implements relationships).
Proof.
  unfold pass3.
  destruct (foldM_invariant (implements_ok parsed_elements)
              (add_implements parsed_elements)
              (Re.finditer implementation_pattern text))
    with (s := @nil (string * list string)) as (impl & -> & Hi).
  - intros s g _ Hs. now apply add_implements_ok.
  - intros c l [].
  - simpl. eexists. split; [reflexivity |]. simpl. split; [| exact Hi].
    apply fold_left_invariant.
    + intros s g _ Hs. now apply add_extends_ok.
    + intros c p [].
Qed.

(** The parent recorded for a child is never the empty name. *)
Lemma extends_truthy (text : string) (parsed_elements : dict element)
    (relationships : relations) (child parent : string) :
  pass3 text parsed_elements = Some relationships ->
  In (child, parent) (extends relationships) -> Py.truthy parent = true.
Proof.
  unfold pass3.
  destruct (foldM _ _ _) as [impl |]; [| discriminate]. simpl.
  intros H. injection H as <-. simpl. revert child parent.
  apply (fold_left_invariant
           (fun ext => forall c p, In (c, p) ext -> Py.truthy p = true)).
  - intros ext g Hg Hext c p. unfold add_extends.
    destruct (edge_match_groups inheritance_pattern _ _ eq_refl eq_refl Hg)
      as (w & -> & Hw).
    destruct (Re.group 1 g) as [child |]; [| apply Hext].
    destruct (_ && _); [| apply Hext].
    intros Hin. apply In_dict_set in Hin as [Heq | Hin]; [| now apply (Hext c)].
    injection Heq as -> ->. now destruct w.
  - intros c p [].
Qed.

(** ** Pass 4 *)

Lemma render_total (parsed_elements : dict element) (relationships : relations)
    (name : string) (details : element) :
  exists text, render parsed_elements relationships name details = Some text.
Proof.
  unfold render, render_header, extends_clause, implements_clause,
    render_constructor.
  destruct (dict_mem name (extends relationships)) eqn:Ee.
  - destruct (dict_mem_get _ _ Ee) as (p & Hp). rewrite Hp. simpl.
    destruct (dict_mem name (implements relationships)) eqn:Ei.
    + destruct (dict_mem_get _ _ Ei) as (l & ->). simpl.
      destruct (negb _); [| simpl; eauto].
      destruct (Py.truthy p && dict_mem p parsed_elements) eqn:Em; [| simpl; eauto].
      apply andb_true_iff in Em as [_ Em].
      destruct (dict_mem_get _ _ Em) as (d & ->). simpl.
      destruct (negb _); [| simpl; eauto].
      destruct (map Attribute.name (attributes d)); simpl; eauto.
    + simpl. destruct (negb _); [| simpl; eauto].
      destruct (Py.truthy p && dict_mem p parsed_elements) eqn:Em; [| simpl; eauto].
      apply andb_true_iff in Em as [_ Em].
      destruct (dict_mem_get _ _ Em) as (d & ->). simpl.
      destruct (negb _); [| simpl; eauto].
      destruct (map Attribute.name (attributes d)); simpl; eauto.
  - assert (Hn : dict_get name (extends relationships) = None).
    { unfold dict_mem in Ee. now destruct (dict_get name (extends relationships)). }
    rewrite Hn. simpl.
    destruct (dict_mem name (implements relationships)) eqn:Ei.
    + destruct (dict_mem_get _ _ Ei) as (l & ->). simpl.
      destruct (negb _); simpl; eauto.
    + simpl. destruct (negb _); simpl; eauto.
Qed.

Lemma pass4_keep (parsed_elements : dict element) (relationships : relations)
    (name : string) (items : dict element) :
  forall files files',
    foldM (write_file parsed_elements relationships) items files = Some files' ->
    dict_mem name items = false ->
    dict_get name files' = dict_get name files.
Proof.
  induction items as [| [k d] items IH]; intros files files' H Hm; simpl in H.
  - now injection H as <-.
  - destruct (render parsed_elements relationships k d); [| discriminate].
    simpl in H. unfold dict_mem in Hm. simpl in Hm.
    destruct (String.eqb name k) eqn:E; [discriminate |].
    rewrite (IH _ _ H Hm). apply dict_get_set_other. now apply String.eqb_neq.
Qed.

(** The file of a declared name holds what [render] returns for it. *)
Lemma pass4_get (parsed_elements : dict element) (relationships : relations)
    (name : string) (details : element) (items : dict element) :
  forall files files',
    foldM (write_file parsed_elements relationships) items files = Some files' ->
    NoDup (keys items) -> In (name, details) items ->
    dict_get name files' = render parsed_elements relationships name details.
Proof.
  induction items as [| [k d] items IH]; intros files files' H Hn Hin;
    simpl in H; [contradiction |].
  destruct (render parsed_elements relationships k d) as [text |] eqn:Et;
    [| discriminate].
  simpl in H. inversion Hn as [| ? ? Hk Hd]; subst.
  destruct Hin as [Heq | Hin]; [| now apply (IH _ _ H)].
  injection Heq as -> ->.
  rewrite (pass4_keep _ _ name _ _ _ H), Et; [apply dict_get_set_same |].
  destruct (dict_mem name items) eqn:E; [| reflexivity].
  apply dict_mem_keys in E. contradiction.
Qed.

Lemma pass4_total (parsed_elements : dict element) (relationships : relations)
    (items : dict element) :
  forall files,
    exists files',
      foldM (write_file parsed_elements relationships) items files = Some files'
      /\ forall name,
           dict_mem name files' = dict_mem name files || dict_mem name items.
Proof.
  induction items as [| [k d] items IH]; intros files; simpl.
  - exists files. split; [reflexivity |]. intros name. now rewrite orb_false_r.
  - destruct (render_total parsed_elements relationships k d) as (text & ->).
    simpl. destruct (IH (dict_set k text files)) as (files' & Hf & Hmem).
    exists files'. split; [exact Hf |]. intros name.
    rewrite Hmem, dict_mem_set. unfold dict_mem at 4. simpl.
    destruct (String.eqb name k); simpl; [now rewrite orb_true_r | reflexivity].
Qed.

(** ** The implements entry of a name, read off the text *)

Lemma add_implements_get (parsed_elements : dict element) (name : string)
    (l : list Re.groups) :
  forall impl impl',
    foldM (add_implements parsed_elements) l impl = Some impl' ->
    dict_get name impl'
    = extended (dict_get name impl) (edges_from parsed_elements l name).
Proof.
  induction l as [| g l IH]; intros impl impl' H; simpl in H.
  - now injection H as <-.
  - destruct (add_implements parsed_elements impl g) as [impl2 |] eqn:E;
      [| discriminate].
    simpl in H. rewrite (IH _ _ H). clear IH H.
    unfold add_implements in E. unfold edges_from. simpl.
    fold (edges_from parsed_elements l name).
    destruct (Re.group 1 g) as [c |]; [| now injection E as <-].
    destruct (Re.group 2 g) as [i |]; [| now injection E as <-].
    destruct (dict_mem c parsed_elements && dict_mem i parsed_elements);
      [| now injection E as <-].
    simpl in *.
    set (impl1 := if negb (dict_mem c impl) then dict_set c [] impl else impl)
      in E.
    destruct (dict_get c impl1) as [l0 |] eqn:E1; [| discriminate].
    simpl in E. injection E as <-.
    destruct (String.eqb c name) eqn:En.
    + apply String.eqb_eq in En. subst c. rewrite dict_get_set_same.
      assert (Hl0 : l0 = match dict_get name impl with Some l => l | None => [] end).
      { unfold impl1, dict_mem in E1.
        destruct (dict_get name impl) as [l1 |] eqn:Eg; simpl in E1.
        - congruence.
        - rewrite dict_get_set_same in E1. congruence. }
      unfold extended at 2. simpl. rewrite <- Hl0.
      destruct (edges_from parsed_elements l name); simpl;
        [reflexivity | now rewrite <- app_assoc].
    + apply String.eqb_neq in En.
      rewrite dict_get_set_other by congruence.
      unfold impl1. destruct (negb (dict_mem c impl)); simpl;
        [rewrite dict_get_set_other by congruence |]; reflexivity.
Qed.

Lemma implements_get (text : string) (parsed_elements : dict element)
    (relationships : relations) (name : string) :
  pass3 text parsed_elements = Some relationships ->
  dict_get name (implements relationships)
  = match realizations parsed_elements text name with
    | [] => None
    | l => Some l
    end.
Proof.
  unfold pass3.
  destruct (foldM _ _ _) as [impl |] eqn:E; [| discriminate]. simpl.
  intros H. injection H as <-. simpl.
  rewrite (add_implements_get _ name _ _ _ E). unfold realizations. simpl.
  now destruct (edges_from _ _ _).
Qed.

(** ** Pass 1: a name matched as an interface is an interface *)

Lemma add_interface_wins (name : string) (l : list Re.groups) :
  forall parsed_elements parsed',
    foldM add_interface l parsed_elements = Some parsed' ->
    (exists g, In g l /\ Re.group 1 g = Some name)
    \/ (exists d, dict_get name parsed_elements = Some d /\ type d = interface) ->
    exists d, dict_get name parsed' = Some d /\ type d = interface.
Proof.
  induction l as [| g l IH]; intros p p' H Hc; simpl in H.
  - injection H as <-. destruct Hc as [(g & [] & _) | Hc]. exact Hc.
  - destruct (add_interface p g) as [p1 |] eqn:E; [| discriminate].
    simpl in H. apply (IH _ _ H). clear IH H.
    unfold add_interface in E.
    destruct (Re.group 1 g) as [n |] eqn:E1; [| discriminate].
    destruct (Re.group 2 g) as [b |]; [| discriminate].
    simpl in E. injection E as <-.
    destruct (String.eqb name n) eqn:En.
    + apply String.eqb_eq in En. subst n. right.
      rewrite dict_get_set_same. eauto.
    + apply String.eqb_neq in En.
      destruct Hc as [(g0 & [<- | Hin] & Hg) | Hc].
      * congruence.
      * left. eauto.
      * right. now rewrite dict_get_set_other.
Qed.

(** ** The generator as a whole *)

Lemma generate_total (text : string) :
  exists parsed_elements relationships files,
    declarations text = Some parsed_elements
    /\ pass3 text parsed_elements = Some relationships
    /\ generate_java_code_from_plantuml text = Some files
    /\ forall name, dict_mem name files = dict_mem name parsed_elements.
Proof.
  destruct (declarations_total text) as (parsed & Hd & _).
  destruct (pass3_total text parsed) as (rel & Hr & _).
  destruct (pass4_total parsed rel parsed []) as (files & Hf & Hmem).
  exists parsed, rel, files. repeat split; try assumption.
  unfold generate_java_code_from_plantuml. rewrite Hd. simpl. now rewrite Hr.
Qed.

Lemma generate_get (text : string) (parsed_elements : dict element)
    (relationships : relations) (files : dict string) (name : string)
    (details : element) :
  declarations text = Some parsed_elements ->
  pass3 text parsed_elements = Some relationships ->
  generate_java_code_from_plantuml text = Some files ->
  dict_get name parsed_elements = Some details ->
  dict_get name files = render parsed_elements relationships name details.
Proof.
  intros Hd Hr Hg Hn. unfold generate_java_code_from_plantuml in Hg.
  rewrite Hd in Hg. simpl in Hg. rewrite Hr in Hg. simpl in Hg.
  destruct (declarations_total text) as (parsed & Hd' & Hp).
  assert (parsed = parsed_elements) by congruence. subst parsed.
  apply (pass4_get _ _ _ _ _ _ _ Hg Hp). now apply dict_get_In.
Qed.

(** * The claims *)

(** C8. The transform is total: whatever the text, no pass raises, and the
    files written are those of the declared names, and no other (none at
    all when nothing is declared). *)
Theorem transform_is_total (plantuml_content : string) :
  exists parsed_elements files,
    declarations plantuml_content = Some parsed_elements
    /\ generate_java_code_from_plantuml plantuml_content = Some files
    /\ forall name, dict_mem name files = dict_mem name parsed_elements.
Proof.
  destruct (generate_total plantuml_content) as (parsed & rel & files & H).
  exists parsed, files. tauto.
Qed.

(** C9. After pass 3, every key and every value of [extends], and every key
    and every element of [implements], is a declared name; building the two
    tables never raises, whatever edges the text holds. *)
Theorem relationships_name_declarations (plantuml_content : string) :
  exists parsed_elements relationships,
    declarations plantuml_content = Some parsed_elements
    /\ pass3 plantuml_content parsed_elements = Some relationships
    /\ (forall child parent,
          In (child, parent) (extends relationships) ->
          dict_mem child parsed_elements = true
          /\ dict_mem parent parsed_elements = true)
    /\ (forall implementing_class interfaces,
          In (implementing_class, interfaces) (implements relationships) ->
          dict_mem implementing_class parsed_elements = true
          /\ forall i, In i interfaces -> dict_mem i parsed_elements = true).
Proof.
  destruct (declarations_total plantuml_content) as (parsed & Hd & _).
  destruct (pass3_total plantuml_content parsed) as (rel & Hr & He & Hi).
  now exists parsed, rel.
Qed.

(** C10. A name matched by the class pattern and by the interface pattern is
    recorded as an interface, wherever the two matches stand in the text. *)
Theorem interface_match_wins (plantuml_content name : string)
    (gc gi : Re.groups) :
  In gc (Re.finditer class_pattern plantuml_content) ->
  Re.group 2 gc = Some name ->
  In gi (Re.finditer interface_pattern plantuml_content) ->
  Re.group 1 gi = Some name ->
  exists parsed_elements details,
    declarations plantuml_content = Some parsed_elements
    /\ dict_get name parsed_elements = Some details
    /\ type details = interface.
Proof.
  intros _ _ Hi Hn.
  destruct (declarations_total plantuml_content) as (parsed & Hd & _).
  exists parsed. pose proof Hd as Hdecl. unfold declarations in Hd.
  destruct (pass1 plantuml_content) as [p1 |] eqn:E1; [| discriminate].
  simpl in Hd. unfold pass1 in E1.
  destruct (foldM add_class _ _) as [classes |]; [| discriminate].
  simpl in E1.
  destruct (add_interface_wins name _ _ _ E1) as (d & Hget & Hty);
    [left; eauto |].
  pose proof (pass2_get _ _ name Hd) as H2. rewrite Hget in H2.
  destruct (parse_members_total d) as (d' & Hd' & Hty').
  exists d'. repeat split; congruence.
Qed.

(** An interface and, after it in the text, an abstract class of the same
    name. *)
Lemma interface_match_wins_witness :
  exists parsed_elements details,
    declarations (unlines ["interface Shape {}"; "abstract class Shape {}"])
    = Some parsed_elements
    /\ dict_get "Shape" parsed_elements = Some details
    /\ type details = interface.
Proof.
  apply (interface_match_wins
           (unlines ["interface Shape {}"; "abstract class Shape {}"]) "Shape"
           [(3, ""); (2, "Shape"); (1, "abstract")] [(2, ""); (1, "Shape")]).
  - vm_compute. left. reflexivity.
  - reflexivity.
  - vm_compute. left. reflexivity.
  - reflexivity.
Defined.

(** C7. A class or abstract class [C] whose [extends] entry is a declared
    [P] that is no interface and has an attribute: the file of [C] is the
    imports, the header and the fields, then one constructor, then the
    accessors and the methods.  The constructor takes the attributes of [P]
    and then those of [C], calls [super] on the names of the attributes of
    [P] first, and then assigns the attributes of [C]. *)
Theorem constructor_calls_super (plantuml_content : string)
    (parsed_elements : dict element) (relationships : relations)
    (files : dict string) (C P : string) (details parent : element) :
  declarations plantuml_content = Some parsed_elements ->
  pass3 plantuml_content parsed_elements = Some relationships ->
  generate_java_code_from_plantuml plantuml_content = Some files ->
  dict_get C parsed_elements = Some details ->
  type details <> interface ->
  dict_get C (extends relationships) = Some P ->
  dict_get P parsed_elements = Some parent ->
  type parent <> interface ->
  attributes parent <> [] ->
  exists header,
    render_header relationships C details = Some header
    /\ dict_get C files
       = Some (render_imports details ++ header ++ render_fields details
               ++ ("    public " ++ C ++ "("
                   ++ Py.join ", "
                        (map (fun a => Attribute.type a ++ " " ++ Attribute.name a)
                           (attributes parent ++ attributes details))
                   ++ ") {" ++ nl
                   ++ "        super("
                   ++ Py.join ", " (map Attribute.name (attributes parent))
                   ++ ");" ++ nl
                   ++ String.concat ""
                        (map (fun a => "        this." ++ Attribute.name a
                                       ++ " = " ++ Attribute.name a ++ ";" ++ nl)
                           (attributes details))
                   ++ "    }" ++ nl ++ nl)
               ++ render_accessors details ++ render_methods details
               ++ "}" ++ nl).
Proof.
  intros Hd Hr Hg HC Hk HP Hparent Hpk Hattrs.
  rewrite (generate_get _ _ _ _ _ _ Hd Hr Hg HC).
  destruct (render_total parsed_elements relationships C details) as (text & Ht).
  unfold render in *.
  destruct (render_header relationships C details) as [header |];
    [| discriminate].
  exists header. split; [reflexivity |]. clear Ht text.
  unfold render_constructor.
  replace (kind_eqb (type details) interface) with false
    by (destruct (type details); simpl; congruence).
  rewrite HP, (extends_truthy _ _ _ C P Hr (dict_get_In _ _ _ HP)),
    (dict_get_mem _ _ _ Hparent), Hparent.
  cbn [negb andb bind].
  replace (kind_eqb (type parent) interface) with false
    by (destruct (type parent); simpl; congruence).
  cbn [negb].
  destruct (map Attribute.name (attributes parent)) as [| n l] eqn:En.
  - destruct (attributes parent); [contradiction | discriminate].
  - rewrite <- En. cbn [bind]. do 2 f_equal. f_equal.
    unfold constructor_head, assignments, constructor_end, assignment, param.
    rewrite map_app, !append_assoc. reflexivity.
Qed.

(** The scenario: [Student], a class, extends [Person], an abstract class
    with one attribute. *)
Lemma constructor_calls_super_witness :
  generate_java_code_from_plantuml Scenario.text = Some Scenario.files
  /\ dict_get "Student" Scenario.files = Some Scenario.student_java.
Proof.
  split; [vm_compute; reflexivity |].
  destruct (constructor_calls_super Scenario.text Scenario.parsed_elements
              Scenario.relationships Scenario.files "Student" "Person"
              Scenario.student Scenario.person
              ltac:(vm_compute; reflexivity) ltac:(vm_compute; reflexivity)
              ltac:(vm_compute; reflexivity) ltac:(vm_compute; reflexivity)
              ltac:(simpl; discriminate) ltac:(vm_compute; reflexivity)
              ltac:(vm_compute; reflexivity) ltac:(simpl; discriminate)
              ltac:(simpl; discriminate))
    as (header & Hheader & Hfile).
  rewrite Hfile. vm_compute in Hheader. injection Hheader as <-.
  vm_compute. reflexivity.
Defined.

(** C6, as the code has it.  The header of the file of a declared name, of
    whatever kind, is the keyword and the name, the parent when [extends]
    has one, and an implements clause exactly when the text holds a
    realization edge that starts at the name and has both ends declared;
    the clause lists the right ends of these edges in order.  The kind of
    the name is not consulted. *)
Theorem header_implements_by_edges (plantuml_content : string)
    (parsed_elements : dict element) (relationships : relations)
    (files : dict string) (name : string) (details : element) :
  declarations plantuml_content = Some parsed_elements ->
  pass3 plantuml_content parsed_elements = Some relationships ->
  generate_java_code_from_plantuml plantuml_content = Some files ->
  dict_get name parsed_elements = Some details ->
  exists members,
    dict_get name files
    = Some (render_imports details
            ++ (keyword (type details) ++ name
                ++ match dict_get name (extends relationships) with
                   | Some parent => " extends " ++ parent
                   | None => ""
                   end
                ++ match realizations parsed_elements plantuml_content name with
                   | [] => ""
                   | interfaces => " implements " ++ Py.join ", " interfaces
                   end
                ++ " {" ++ nl)
            ++ members).
Proof.
  intros Hd Hr Hg Hn.
  rewrite (generate_get _ _ _ _ _ _ Hd Hr Hg Hn).
  destruct (render_total parsed_elements relationships name details) as (text & Ht).
  unfold render in *.
  destruct (render_header relationships name details) as [header |] eqn:Hh;
    [| discriminate].
  cbn [bind] in *.
  destruct (render_constructor parsed_elements relationships name details)
    as [constructor |]; [| discriminate].
  cbn [bind].
  exists (render_fields details ++ constructor ++ render_accessors details
          ++ render_methods details ++ "}" ++ nl).
  do 2 f_equal. f_equal.
  unfold render_header, extends_clause, implements_clause, dict_mem in Hh.
  rewrite (implements_get _ _ _ name Hr) in Hh.
  assert (Hline : declaration_line name details = keyword (type details) ++ name)
    by (unfold declaration_line, keyword; now destruct (type details)).
  rewrite Hline in Hh.
  destruct (dict_get name (extends relationships)) as [parent |];
    destruct (realizations parsed_elements plantuml_content name);
    cbn [bind] in Hh; injection Hh as <-; now rewrite !append_assoc.
Qed.

(** A class with two realization edges. *)
Lemma header_implements_by_edges_witness :
  generate_java_code_from_plantuml Realization.text = Some Realization.files
  /\ exists members,
       dict_get "Circle" Realization.files
       = Some ("public class Circle implements Shape, Drawable {" ++ nl
               ++ members).
Proof.
  split; [vm_compute; reflexivity |].
  destruct (header_implements_by_edges Realization.text
              Realization.parsed_elements Realization.relationships
              Realization.files "Circle" (Realization.empty class)
              ltac:(vm_compute; reflexivity) ltac:(vm_compute; reflexivity)
              ltac:(vm_compute; reflexivity) ltac:(vm_compute; reflexivity))
    as (members & Hfile).
  exists members. rewrite Hfile. vm_compute. reflexivity.
Defined.

(** C6, as the specification has it, fails: an interface on the left of a
    realization edge gets an implements clause in its header. *)
Lemma interface_header_has_implements :
  declarations
    (unlines ["interface Shape {"; "}"; "interface Drawable {"; "}";
              "Shape ..|> Drawable"])
  = Some [("Shape",
           {| type := interface; attributes := []; methods := [];
              body := nl |});
          ("Drawable",
           {| type := interface; attributes := []; methods := [];
              body := nl |})]
  /\ generate_java_code_from_plantuml
       (unlines ["interface Shape {"; "}"; "interface Drawable {"; "}";
                 "Shape ..|> Drawable"])
     = Some [("Shape",
              unlines ["public interface Shape implements Drawable {"; "}"]);
             ("Drawable", unlines ["public interface Drawable {"; "}"])].
Proof. split; vm_compute; reflexivity. Qed.

(** C1.  The scenario of the specification: [Person <|-- Student] with both
    names declared.  The source takes the left name for the child, so the
    file of [Person] extends [Student], takes the attribute of [Student] in
    its constructor and hands it to [super]; the file of [Student] has no
    extends clause. *)
Theorem generalization_edge_read_backwards :
  relationships_of
    (unlines ["abstract class Person { - name: String }";
              "class Student { - id: String }";
              "Person <|-- Student"])
  = Some {| extends := [("Person", "Student")]; implements := [] |}
  /\ generate_java_code_from_plantuml
       (unlines ["abstract class Person { - name: String }";
                 "class Student { - id: String }";
                 "Person <|-- Student"])
     = Some [("Person",
              unlines ["public abstract class Person extends Student {";
                       "    private String name;";
                       "";
                       "    public Person(String id, String name) {";
                       "        super(id);";
                       "        this.name = name;";
                       "    }";
                       "";
                       "    public String getName() {";
                       "        return name;";
                       "    }";
                       "";
                       "    public void setName(String name) {";
                       "        this.name = name;";
                       "    }";
                       "";
                       "}"]);
             ("Student",
              unlines ["public class Student {";
                       "    private String id;";
                       "";
                       "    public Student(String id) {";
                       "        this.id = id;";
                       "    }";
                       "";
                       "    public String getId() {";
                       "        return id;";
                       "    }";
                       "";
                       "    public void setId(String id) {";
                       "        this.id = id;";
                       "    }";
                       "";
                       "}"])].
Proof. split; vm_compute; reflexivity. Qed.

(** C2.  A member line with a modifier marker, as in the sample diagram of
    the source.  The body of the declaration stops at the closing brace of
    the marker and the line that holds the marker is no member: no method is
    recorded for it, nor for any line after it, and the file has no abstract
    or static method. *)
Theorem modifier_marker_line_is_lost :
  declarations
    (unlines ["abstract class Person {";
              "  + {abstract} getAge(): int";
              "  + getDetails(): String";
              "}"])
  = Some [("Person",
           {| type := abstract_class; attributes := []; methods := [];
              body := nl ++ "  + {abstract" |})]
  /\ generate_java_code_from_plantuml
       (unlines ["abstract class Person {";
                 "  + {abstract} getAge(): int";
                 "  + getDetails(): String";
                 "}"])
     = Some [("Person",
              unlines ["public abstract class Person {";
                       "    public Person() {";
                       "    }";
                       "";
                       "}"])]
  /\ generate_java_code_from_plantuml
       (unlines ["class Course {";
                 "  + getCourseTitle(): String";
                 "  + {static} getCreditHours(): int";
                 "}"])
     = Some [("Course",
              unlines ["public class Course {";
                       "    public Course() {";
                       "    }";
                       "";
                       "    public String getCourseTitle() {";
                       "        // TODO: Implement method logic";
                       "        return defaultStringValue(); // Placeholder return";
                       "    }";
                       "";
                       "}"])].
Proof. repeat split; vm_compute; reflexivity. Qed.

(** C3.  An interface with a member line that has no parameter list: the
    file has no constructor, but it has the field and its two accessors. *)
Theorem interface_fields_are_rendered :
  generate_java_code_from_plantuml
    (unlines ["interface Shape {";
              "  - sides: int";
              "  + area(): double";
              "}"])
  = Some [("Shape",
           unlines ["public interface Shape {";
                    "    private int sides;";
                    "";
                    "    public int getSides() {";
                    "        return sides;";
                    "    }";
                    "";
                    "    public void setSides(int sides) {";
                    "        this.sides = sides;";
                    "    }";
                    "";
                    "    public double area();";
                    "";
                    "}"])].
Proof. vm_compute. reflexivity. Qed.

(** C4.  A private attribute [studentId]: the accessors are named
    [getStudentid] and [setStudentid], since [capitalize] puts every
    character after the first in lower case. *)
Theorem accessor_name_lowercases_tail :
  generate_java_code_from_plantuml
    (unlines ["class Student {"; "  - studentId: String"; "}"])
  = Some [("Student",
           unlines ["public class Student {";
                    "    private String studentId;";
                    "";
                    "    public Student(String studentId) {";
                    "        this.studentId = studentId;";
                    "    }";
                    "";
                    "    public String getStudentid() {";
                    "        return studentId;";
                    "    }";
                    "";
                    "    public void setStudentid(String studentId) {";
                    "        this.studentId = studentId;";
                    "    }";
                    "";
                    "}"])].
Proof. vm_compute. reflexivity. Qed.

(** C5.  Member lines with no visibility marker, or with a marker outside
    [+ - # ~], are no members: of the four lines of this body only the one
    that starts with [+] is recorded. *)
Theorem member_without_marker_is_skipped :
  declarations
    (unlines ["class Point {";
              "  x: int";
              "  * y: int";
              "  + z: int";
              "  move(dx: int): void";
              "}"])
  = Some [("Point",
           {| type := class;
              attributes := [Attribute.make "public" "int" "z"];
              methods := [];
              body := nl ++ unlines ["  x: int"; "  * y: int"; "  + z: int";
                                     "  move(dx: int): void"] |})].
Proof. vm_compute. reflexivity. Qed.

(** * Further properties

    What the patterns let through, what pass 2 makes of a line, how the
    tables of pass 3 follow the edges, and the layout of the files. *)

Lemma every_app (p : ascii -> bool) (a b : string) :
  every p (a ++ b) = every p a && every p b.
Proof.
  induction a as [| c a IH]; simpl; [reflexivity |].
  now rewrite IH, andb_assoc.
Qed.

Lemma every_weaken (p q : ascii -> bool) (s : string) :
  (forall c, p c = true -> q c = true) -> every p s = true -> every q s = true.
Proof.
  intros Hpq. induction s as [| c s IH]; simpl; [reflexivity |].
  intros H. apply andb_true_iff in H as [Hc Hs].
  now rewrite (Hpq _ Hc), IH.
Qed.

Lemma length_app (a b : string) :
  String.length (a ++ b) = String.length a + String.length b.
Proof. induction a as [| c a IH]; simpl; [reflexivity | now rewrite IH]. Qed.

Lemma substring_app (a b : string) :
  substring 0 (String.length a) (a ++ b) = a.
Proof.
  induction a as [| c a IH]; simpl.
  - now destruct b.
  - now rewrite IH.
Qed.

Lemma consumed_app (cur cur' : Re.cursor) (w : string) :
  Re.rest cur = w ++ Re.rest cur' -> Re.consumed cur cur' = w.
Proof.
  unfold Re.consumed. intros ->. rewrite length_app.
  replace (String.length w + String.length (Re.rest cur')
           - String.length (Re.rest cur')) with (String.length w) by lia.
  apply substring_app.
Qed.

Lemma one_of_head (c : ascii) (l : string) :
  Patterns.one_of (String c l) c = true.
Proof. unfold Patterns.one_of. simpl. now rewrite Ascii.eqb_refl. Qed.

Lemma one_of_tail (c d : ascii) (l : string) :
  Patterns.one_of l c = true -> Patterns.one_of (String d l) c = true.
Proof. unfold Patterns.one_of. simpl. intros ->. apply orb_true_r. Qed.

Lemma lit_text (l : string) :
  forall cur cur',
    Re.lit l cur = Some cur' ->
    Re.rest cur = l ++ Re.rest cur'.
Proof.
  induction l as [| c l IH]; intros [prev s] cur' H; simpl in H.
  - now injection H as <-.
  - destruct s as [| d s]; [discriminate |].
    destruct (Ascii.eqb c d) eqn:E; [| discriminate].
    apply Ascii.eqb_eq in E. subst d. apply IH in H. simpl in *. now rewrite H.
Qed.

Lemma every_one_of_self (l : string) : every (Patterns.one_of l) l = true.
Proof.
  assert (H : forall k, (forall c, Patterns.one_of k c = true ->
                                   Patterns.one_of l c = true) ->
                        every (Patterns.one_of l) k = true).
  { induction k as [| c k IH]; intros Hk; simpl; [reflexivity |].
    rewrite (Hk c (one_of_head c k)). simpl. apply IH.
    intros d Hd. apply Hk. now apply one_of_tail. }
  now apply H.
Qed.

(** What a match takes is a prefix of the subject, made of characters the
    expression can take. *)
Lemma matches_text (r : Re.regex) (cur cur' : Re.cursor) (g g' : Re.groups) :
  Re.matches r cur g cur' g' ->
  exists w, Re.rest cur = w ++ Re.rest cur' /\ every (chars r) w = true.
Proof.
  induction 1; simpl.
  - exists l. split; [now apply lit_text | apply every_one_of_self].
  - exists (String c ""). simpl. now rewrite H.
  - now exists "".
  - destruct IHmatches as (w & Hw & He). simpl in *.
    exists (String c w). simpl. now rewrite Hw, H, He.
  - destruct IHmatches1 as (w1 & Hw1 & He1).
    destruct IHmatches2 as (w2 & Hw2 & He2).
    exists (w1 ++ w2). rewrite Hw1, Hw2, append_assoc. split; [reflexivity |].
    rewrite every_app. apply andb_true_iff. split.
    + eapply every_weaken; [| exact He1]. intros c ->. reflexivity.
    + eapply every_weaken; [| exact He2]. intros c ->. apply orb_true_r.
  - exact IHmatches.
  - now exists "".
  - exact IHmatches.
  - now exists "".
  - now exists "".
Qed.

Lemma matches_group_in (i : nat) (q : ascii -> bool) (r : Re.regex)
    (cur cur' : Re.cursor) (g g' : Re.groups) :
  Re.matches r cur g cur' g' ->
  group_in i q r ->
  (forall w, Re.group i g = Some w -> every q w = true) ->
  forall w, Re.group i g' = Some w -> every q w = true.
Proof.
  induction 1; cbn [group_in Re.group]; intros Hin Hg w Hw; eauto.
  - destruct Hin as [H1 H2]. eauto.
  - destruct Hin as [Hq Hin].
    destruct (Nat.eqb i i0) eqn:E; [| eauto].
    apply Nat.eqb_eq in E. injection Hw as <-.
    destruct (matches_text _ _ _ _ _ H) as (w & Hw & He).
    rewrite (consumed_app _ _ _ Hw).
    eapply every_weaken; [| exact He]. now apply Hq.
Qed.

Lemma match_at_group_in (i : nat) (q : ascii -> bool) (r : Re.regex)
    (cur cur' : Re.cursor) (g : Re.groups) (w : string) :
  Re.match_at r cur = Some (g, cur') -> group_in i q r ->
  Re.group i g = Some w -> every q w = true.
Proof.
  intros H Hin. apply ReFacts.match_at_sound in H.
  apply (matches_group_in i q _ _ _ _ _ H Hin). discriminate.
Qed.

Ltac solve_group_in :=
  cbn [group_in Patterns.class_pattern Patterns.interface_pattern
       Patterns.member_pattern Patterns.inheritance_pattern
       Patterns.implementation_pattern Re.Plus];
  repeat split;
  let E := fresh "E" in
  let c := fresh "c" in
  let Hc := fresh "Hc" in
  intros E c; try discriminate E; intros Hc;
  unfold Re.Plus in Hc; cbn [chars] in Hc;
  repeat match goal with
         | H : _ || _ = true |- _ => apply orb_true_iff in H as [H | H]
         end; assumption.

Lemma class_name_word (text : string) (g : Re.groups) (name : string) :
  In g (Re.finditer class_pattern text) -> Re.group 2 g = Some name ->
  word name.
Proof.
  intros H Hn. apply ReFacts.finditer_sound in H as (cur & cur' & H).
  destruct (ReFacts.match_at_name 2 _ _ _ _ H eq_refl eq_refl) as (w & Hw & Hne).
  assert (w = name) by congruence. subst w. split; [exact Hne |].
  apply (match_at_group_in 2 Py.is_word _ _ _ _ _ H); [| exact Hn].
  unfold class_pattern. solve_group_in.
Qed.

Lemma matches_free (i : nat) (r : Re.regex) (cur cur' : Re.cursor)
    (g g' : Re.groups) :
  Re.matches r cur g cur' g' -> free i r = true ->
  Re.group i g' = Re.group i g.
Proof.
  induction 1; cbn [free Re.group]; intros Hf; auto.
  - apply andb_true_iff in Hf as [H1 H2].
    now rewrite IHmatches2, IHmatches1.
  - apply andb_true_iff in Hf as [H1 H2].
    destruct (Nat.eqb i i0); [discriminate | auto].
Qed.

Lemma lstrip_head (s : string) (c : ascii) (s' : string) :
  Py.lstrip s = String c s' -> Py.is_space c = false.
Proof.
  induction s as [| d s IH]; simpl; [discriminate |].
  destruct (Py.is_space d) eqn:E; [exact IH |].
  intros H. injection H as <- _. exact E.
Qed.

Lemma rstrip_head (c : ascii) (s : string) :
  Py.is_space c = false ->
  exists s', Py.rstrip (String c s) = String c s'.
Proof.
  intros Hc. simpl. destruct (Py.rstrip s); rewrite ?Hc; eauto.
Qed.

(** A stripped line is empty or starts with a character that is no blank. *)
Lemma strip_head (s : string) :
  Py.strip s = "" \/
  exists c s', Py.strip s = String c s' /\ Py.is_space c = false.
Proof.
  unfold Py.strip. destruct (Py.lstrip s) as [| c t] eqn:E.
  - now left.
  - right. pose proof (lstrip_head _ _ _ E) as Hc.
    destruct (rstrip_head c t Hc) as (s' & ->). eauto.
Qed.

(** A line that matches the member pattern and does not start with a blank
    starts with its visibility marker. *)
Lemma member_match_marker (s : string) (g : Re.groups) :
  Re.match_ member_pattern s = Some g ->
  (forall c s', s = String c s' -> Py.is_space c = false) ->
  exists c s',
    s = String c s' /\ one_of "+-#~" c = true
    /\ Re.group 1 g = Some (String c "").
Proof.
  intros H Hs. apply ReFacts.match_sound in H as (cur' & H).
  apply ReFacts.match_at_sound in H. unfold member_pattern in H.
  inversion H as [| | | | ? ? ? ? c1 g1 ? ? Hbol Hrest | | | | |]; subst.
  inversion Hbol; subst. clear Hbol H.
  inversion Hrest as [| | | | ? ? ? ? c2 g2 ? ? Hstar Hrest2 | | | | |]; subst.
  clear Hrest.
  assert (Hc2 : c2 = (None, s) /\ g2 = []).
  { inversion Hstar; subst; [now split |].
    match goal with
    | Hp : Py.is_space ?c = true |- _ =>
        rewrite (Hs _ _ eq_refl) in Hp; discriminate
    end. }
  destruct Hc2 as [-> ->]. clear Hstar.
  inversion Hrest2 as [| | | | ? ? ? ? c3 g3 ? ? Hgrp Hrest3 | | | | |]; subst.
  clear Hrest2.
  inversion Hgrp as [| | | | | | | ? ? ? ? ? ? Hcls | |]; subst.
  inversion Hcls; subst.
  match goal with
  | Hp : one_of "+-#~" ?c = true |- _ =>
      exists c; eexists; split; [reflexivity | split; [exact Hp |]]
  end.
  rewrite (matches_free 1 _ _ _ _ _ Hrest3 eq_refl). cbn [Re.group Nat.eqb].
  f_equal. now apply consumed_app.
Qed.

Lemma match_word (i : nat) (r : Re.regex) (cur cur' : Re.cursor)
    (g : Re.groups) (w : string) :
  Re.match_at r cur = Some (g, cur') ->
  Re.tight i r = true -> group_in i Py.is_word r ->
  Re.group i g = Some w -> word w.
Proof.
  intros H Ht Hin Hw. split.
  - apply ReFacts.match_at_sound in H.
    apply (ReFacts.matches_tight i _ _ _ _ _ H Ht); [discriminate | exact Hw].
  - now apply (match_at_group_in i Py.is_word _ _ _ _ _ H Hin).
Qed.

Lemma or_default_word (o : option string) (d : string) :
  word d -> (forall w, o = Some w -> word w) -> word (or_default o d).
Proof.
  intros Hd Ho. destruct o as [w |]; simpl; [| exact Hd].
  destruct (Ho w eq_refl) as [Hne He]. destruct w; [contradiction |].
  simpl. now split.
Qed.

Lemma java_visibility_known (o : option string) :
  In (java_visibility o) visibilities.
Proof.
  unfold java_visibility, visibilities. destruct o as [c |]; simpl; [| auto].
  repeat match goal with
         | |- context [if ?b then _ else _] => destruct b
         end; simpl; auto.
Qed.

Lemma member_pattern_group_in (i : nat) :
  i = 2 \/ i = 3 \/ i = 5 -> group_in i Py.is_word member_pattern.
Proof.
  intros [-> | [-> | ->]]; unfold member_pattern; solve_group_in.
Qed.

Lemma parse_member_spec (details : element) (line : string) :
  exists details',
    parse_member details line = Some details'
    /\ type details' = type details /\ body details' = body details
    /\ ((attributes details' = attributes details
         /\ methods details' = methods details)
        \/ exists c rest_,
             Py.strip line = String c rest_ /\ one_of "+-#~" c = true
             /\ ((exists attr,
                    attributes details' = (attributes details ++ [attr])%list
                    /\ methods details' = methods details
                    /\ Attribute.visibility attr
                       = java_visibility (Some (String c ""))
                    /\ attribute_ok attr)
                 \/ (exists m,
                       methods details' = (methods details ++ [m])%list
                       /\ attributes details' = attributes details
                       /\ Method.visibility m
                          = java_visibility (Some (String c ""))
                       /\ method_ok m))).
Proof.
  unfold parse_member.
  destruct (Re.match_ member_pattern (Py.strip line)) as [g |] eqn:E.
  2: { exists details. repeat split; auto. }
  assert (Hhead : forall c s', Py.strip line = String c s' ->
                               Py.is_space c = false).
  { intros c s' Hs. destruct (strip_head line) as [H0 | (d & t & Ht & Hd)];
      congruence. }
  destruct (member_match_marker _ _ E Hhead) as (c & rest_ & Hs & Hc & Hg1).
  destruct (ReFacts.match_sound _ _ _ E) as (cur' & Hm).
  destruct (ReFacts.match_at_name 2 _ _ _ _ Hm eq_refl eq_refl)
    as (member_name & Hn & _).
  assert (Hname : word member_name).
  { apply (match_word 2 _ _ _ _ _ Hm eq_refl); [| exact Hn].
    apply member_pattern_group_in. auto. }
  rewrite Hn, Hg1. cbn [bind].
  destruct (Re.group 4 g) as [params_str |]; eexists;
    (split; [reflexivity |]); cbn [type body attributes methods];
    (split; [reflexivity |]); (split; [reflexivity |]);
    right; exists c, rest_; (split; [exact Hs |]); (split; [exact Hc |]).
  - right. eexists. split; [reflexivity |]. split; [reflexivity |].
    split; [reflexivity |]. unfold method_ok. cbn.
    split; [apply (java_visibility_known (Some (String c ""))) |].
    split; [exact Hname |].
    apply or_default_word; [split; [discriminate | reflexivity] |].
    intros w Hw. apply (match_word 5 _ _ _ _ _ Hm eq_refl); [| exact Hw].
    apply member_pattern_group_in. auto.
  - left. eexists. split; [reflexivity |]. split; [reflexivity |].
    split; [reflexivity |]. unfold attribute_ok. cbn.
    split; [apply (java_visibility_known (Some (String c ""))) |].
    split; [| exact Hname].
    apply or_default_word; [split; [discriminate | reflexivity] |].
    intros w Hw. apply (match_word 3 _ _ _ _ _ Hm eq_refl); [| exact Hw].
    apply member_pattern_group_in. auto.
Qed.

(** X1. The loop body of pass 2 never raises and keeps the kind and the
    body.  It adds nothing, or one attribute, or one method; it adds one only
    for a line that, stripped, starts with one of the four markers; the
    visibility recorded is the one of that marker, and the names and types
    recorded are words. *)
Theorem member_needs_marker (details : element) (line : string) :
  exists details',
    parse_member details line = Some details'
    /\ type details' = type details /\ body details' = body details
    /\ ((attributes details' = attributes details
         /\ methods details' = methods details)
        \/ exists c rest_,
             Py.strip line = String c rest_ /\ one_of "+-#~" c = true
             /\ ((exists attr,
                    attributes details' = (attributes details ++ [attr])%list
                    /\ methods details' = methods details
                    /\ Attribute.visibility attr
                       = java_visibility (Some (String c ""))
                    /\ attribute_ok attr)
                 \/ (exists m,
                       methods details' = (methods details ++ [m])%list
                       /\ attributes details' = attributes details
                       /\ Method.visibility m
                          = java_visibility (Some (String c ""))
                       /\ method_ok m))).
Proof. exact (parse_member_spec details line). Qed.

Lemma Forall_dict_set {V : Type} (P : string * V -> Prop) (k : string) (v : V)
    (d : dict V) :
  Forall P d -> P (k, v) -> Forall P (dict_set k v d).
Proof.
  intros Hd Hk. induction d as [| [k' v'] d IH]; simpl.
  - now constructor.
  - inversion Hd; subst. destruct (String.eqb k k'); constructor; auto.
Qed.

Lemma body_group_in (i : nat) (r : Re.regex) (cur cur' : Re.cursor)
    (g : Re.groups) (w : string) :
  Re.match_at r cur = Some (g, cur') -> group_in i (none_of "}") r ->
  Re.group i g = Some w -> every (none_of "}") w = true.
Proof. apply match_at_group_in. Qed.

Lemma pass1_fresh (text : string) (parsed_elements : dict element) :
  pass1 text = Some parsed_elements -> Forall fresh_ok parsed_elements.
Proof.
  unfold pass1. intros H.
  destruct (foldM_invariant (Forall fresh_ok) add_class
              (Re.finditer class_pattern text))
    with (s := ([] : dict element)) as (classes & Hc & Hok).
  - intros s g Hg Hs.
    destruct (class_match_groups _ _ Hg) as (name & body & Hn & _ & Hb).
    unfold add_class. rewrite Hn, Hb. cbn [bind].
    eexists. split; [reflexivity |]. apply Forall_dict_set; [exact Hs |].
    apply ReFacts.finditer_sound in Hg as (cur & cur' & Hm).
    repeat split; cbn.
    + destruct (ReFacts.match_at_name 2 _ _ _ _ Hm eq_refl eq_refl) as (w & Hw & Hne).
      congruence.
    + apply (match_at_group_in 2 Py.is_word _ _ _ _ _ Hm); [| exact Hn].
      unfold class_pattern. solve_group_in.
    + apply (match_at_group_in 3 (none_of "}") _ _ _ _ _ Hm); [| exact Hb].
      unfold class_pattern. solve_group_in.
  - constructor.
  - unfold dict in *. rewrite Hc in H. cbn [bind] in H.
    destruct (foldM_invariant (Forall fresh_ok) add_interface
                (Re.finditer interface_pattern text))
      with (s := classes) as (all & Ha & Hall); [| exact Hok | congruence].
    intros s g Hg Hs.
    destruct (interface_match_groups _ _ Hg) as (name & body & Hn & _ & Hb).
    unfold add_interface. rewrite Hn, Hb. cbn [bind].
    eexists. split; [reflexivity |]. apply Forall_dict_set; [exact Hs |].
    apply ReFacts.finditer_sound in Hg as (cur & cur' & Hm).
    repeat split; cbn.
    + destruct (ReFacts.match_at_name 1 _ _ _ _ Hm eq_refl eq_refl) as (w & Hw & Hne).
      congruence.
    + apply (match_at_group_in 1 Py.is_word _ _ _ _ _ Hm); [| exact Hn].
      unfold interface_pattern. solve_group_in.
    + apply (match_at_group_in 2 (none_of "}") _ _ _ _ _ Hm); [| exact Hb].
      unfold interface_pattern. solve_group_in.
Qed.

Lemma parse_members_ok (details details' : element) :
  parse_members details = Some details' ->
  Forall attribute_ok (attributes details) ->
  Forall method_ok (methods details) ->
  body details' = body details
  /\ Forall attribute_ok (attributes details')
  /\ Forall method_ok (methods details').
Proof.
  unfold parse_members. intros H Ha Hm.
  destruct (foldM_invariant
              (fun d => body d = body details
                        /\ Forall attribute_ok (attributes d)
                        /\ Forall method_ok (methods d))
              parse_member (Py.split Re.newline (body details)))
    with (s := details) as (d & Hd & Hok); [| now repeat split | congruence].
  intros s line _ (Hb & Hsa & Hsm).
  destruct (parse_member_spec s line)
    as (s' & Hs' & _ & Hbody & [[Ea Em] | (c & r & _ & _ & Hnew)]).
  - exists s'. split; [exact Hs' |]. rewrite Ea, Em. split; [congruence | auto].
  - exists s'. split; [exact Hs' |]. split; [congruence |].
    destruct Hnew as [(a & Ea & Em & _ & Hok) | (m & Em & Ea & _ & Hok)];
      rewrite Ea, Em; split; auto; apply Forall_app; split; auto.
Qed.

Lemma pass2_ok (parsed_elements parsed' : dict element) :
  pass2 parsed_elements = Some parsed' ->
  Forall fresh_ok parsed_elements -> Forall declaration_ok parsed'.
Proof.
  revert parsed'.
  induction parsed_elements as [| [name details] others IH]; simpl;
    intros p H Hf.
  - injection H as <-. constructor.
  - destruct (parse_members details) as [details' |] eqn:E; [| discriminate].
    cbn [bind] in H.
    destruct (pass2 others) as [others' |]; [| discriminate].
    cbn [bind] in H. injection H as <-.
    inversion Hf as [| ? ? (Hw & Hb & Ha & Hm) Hrest]; subst. cbn in *.
    constructor; [| now apply IH].
    destruct (parse_members_ok _ _ E) as (Hb' & Ha' & Hm');
      [rewrite Ha; constructor | rewrite Hm; constructor |].
    unfold declaration_ok. cbn. rewrite Hb'. auto.
Qed.

Lemma declarations_ok (text : string) (parsed_elements : dict element) :
  declarations text = Some parsed_elements ->
  Forall declaration_ok parsed_elements.
Proof.
  unfold declarations. destruct (pass1 text) as [p1 |] eqn:E; [| discriminate].
  cbn [bind]. intros H. apply (pass2_ok _ _ H). now apply (pass1_fresh text).
Qed.

Lemma is_word_lower (c : ascii) :
  Py.is_word c = true -> Py.is_word (Py.lower_char c) = true.
Proof.
  destruct c as [[] [] [] [] [] [] [] []]; vm_compute; intros H;
    first [exact H | reflexivity].
Qed.

Lemma is_word_not_space (c : ascii) :
  Py.is_word c = true -> Py.is_space c = false.
Proof.
  destruct c as [[] [] [] [] [] [] [] []]; vm_compute; intros H;
    first [reflexivity | discriminate H].
Qed.

Lemma every_lower (s : string) :
  every Py.is_word s = true -> every Py.is_word (Py.lower s) = true.
Proof.
  induction s as [| c s IH]; simpl; [reflexivity |].
  intros H. apply andb_true_iff in H as [Hc Hs].
  now rewrite (is_word_lower _ Hc), IH.
Qed.

(** A text in which [c] does not occur contains nothing that starts with
    [c]. *)
Lemma contains_absent (q : ascii -> bool) (c : ascii) (n h : string) :
  q c = false -> every q h = true -> Py.contains (String c n) h = false.
Proof.
  intros Hc. induction h as [| d h IH]; simpl; [reflexivity |].
  intros H. apply andb_true_iff in H as [Hd Hh].
  rewrite (IH Hh), orb_false_r.
  destruct (ascii_dec c d) as [-> | _]; [congruence | reflexivity].
Qed.

Lemma replace_absent (q : ascii -> bool) (c : ascii) (n new s : string) :
  q c = false -> every q s = true ->
  Py.replace (String c n) new s = s.
Proof.
  intros Hc. unfold Py.replace. induction s as [| d s IH]; simpl; [reflexivity |].
  intros H. apply andb_true_iff in H as [Hd Hs].
  destruct (ascii_dec c d) as [-> | _]; [congruence |].
  now rewrite (IH Hs).
Qed.

Lemma rstrip_words (s : string) :
  every Py.is_word s = true -> Py.rstrip s = s.
Proof.
  induction s as [| c s IH]; simpl; [reflexivity |].
  intros H. apply andb_true_iff in H as [Hc Hs].
  rewrite (IH Hs), (is_word_not_space _ Hc). now destruct s.
Qed.

Lemma strip_words (s : string) :
  every Py.is_word s = true -> Py.strip s = s.
Proof.
  intros H. unfold Py.strip.
  assert (Hl : Py.lstrip s = s).
  { destruct s as [| c s]; [reflexivity |]. simpl in *.
    apply andb_true_iff in H as [Hc _].
    now rewrite (is_word_not_space _ Hc). }
  rewrite Hl. now apply rstrip_words.
Qed.

Lemma rename_same (m : Method.t) : rename m (Method.name m) = m.
Proof. now destruct m. Qed.

(** On a method whose name is a word, the two tests on the name come down
    to one: does the name hold [abstract], in any case of letters. *)
Lemma method_modifier_word (details : element) (m : Method.t) :
  word (Method.name m) ->
  method_modifier details m
  = if kind_eqb (type details) abstract_class
       && String.eqb (Method.visibility m) "public"
       && Py.contains "abstract" (Py.lower (Method.name m))
    then ("abstract ", m)
    else if kind_eqb (type details) interface then ("", publish m)
    else ("", m).
Proof.
  intros [_ Hw]. unfold method_modifier.
  assert (Hbrace : Py.is_word "{"%char = false) by reflexivity.
  rewrite (replace_absent Py.is_word _ _ _ _ Hbrace Hw), (strip_words _ Hw),
    rename_same.
  assert (Hstatic : Py.contains "{static}" (Py.lower (Method.name m)) = false)
    by (apply (contains_absent Py.is_word); [exact Hbrace | now apply every_lower]).
  destruct (kind_eqb (type details) abstract_class
            && String.eqb (Method.visibility m) "public"
            && Py.contains "abstract" (Py.lower (Method.name m))).
  - now rewrite Hstatic.
  - destruct (kind_eqb (type details) interface); cbn [publish Method.name];
      now rewrite Hstatic.
Qed.

(** X2. The declared names are words (one word character at least, word
    characters only) and no name stands twice in the table. *)
Theorem declared_names_are_distinct_words (plantuml_content : string) :
  exists parsed_elements,
    declarations plantuml_content = Some parsed_elements
    /\ NoDup (keys parsed_elements)
    /\ Forall word (keys parsed_elements).
Proof.
  destruct (declarations_total plantuml_content) as (parsed & Hd & Hp).
  exists parsed. split; [exact Hd |]. split; [exact Hp |].
  pose proof (declarations_ok _ _ Hd) as Hok. unfold keys.
  apply Forall_map. eapply Forall_impl; [| exact Hok].
  intros item H. apply H.
Qed.

(** X3. No body of a declaration holds a closing brace. *)
Theorem bodies_hold_no_closing_brace (plantuml_content : string) :
  exists parsed_elements,
    declarations plantuml_content = Some parsed_elements
    /\ Forall (fun item => every (none_of "}") (body (snd item)) = true)
         parsed_elements.
Proof.
  destruct (declarations_total plantuml_content) as (parsed & Hd & _).
  exists parsed. split; [exact Hd |].
  eapply Forall_impl; [| exact (declarations_ok _ _ Hd)].
  intros item H. apply H.
Qed.

(** X4. In the declaration table every attribute and every method has one
    of the four visibilities, a name that is a word and a type (a return
    type) that is a word. *)
Theorem members_are_well_formed (plantuml_content : string) :
  exists parsed_elements,
    declarations plantuml_content = Some parsed_elements
    /\ Forall (fun item =>
                 Forall attribute_ok (attributes (snd item))
                 /\ Forall method_ok (methods (snd item)))
         parsed_elements.
Proof.
  destruct (declarations_total plantuml_content) as (parsed & Hd & _).
  exists parsed. split; [exact Hd |].
  eapply Forall_impl; [| exact (declarations_ok _ _ Hd)].
  intros item H. apply H.
Qed.

Lemma render_method_word (details : element) (m : Method.t) :
  word (Method.name m) ->
  render_method details m
  = if kind_eqb (type details) interface
    then signature "public" "" m ++ ";" ++ nl ++ nl
    else if kind_eqb (type details) abstract_class
            && String.eqb (Method.visibility m) "public"
            && Py.contains "abstract" (Py.lower (Method.name m))
         then signature (Method.visibility m) "abstract " m ++ ";" ++ nl ++ nl
         else signature (Method.visibility m) "" m ++ placeholder m.
Proof.
  intros Hw. unfold render_method. rewrite (method_modifier_word _ _ Hw).
  destruct (type details); cbn [kind_eqb andb]; try reflexivity.
  destruct (String.eqb (Method.visibility m) "public"
            && Py.contains "abstract" (Py.lower (Method.name m)));
    reflexivity.
Qed.

Lemma declared_method_word (text : string) (parsed_elements : dict element)
    (name : string) (details : element) (m : Method.t) :
  declarations text = Some parsed_elements ->
  dict_get name parsed_elements = Some details ->
  In m (methods details) -> word (Method.name m).
Proof.
  intros Hd Hn Hm. pose proof (declarations_ok _ _ Hd) as Hok.
  rewrite Forall_forall in Hok.
  destruct (Hok _ (dict_get_In _ _ _ Hn)) as (_ & _ & _ & Hms).
  rewrite Forall_forall in Hms. apply (Hms _ Hm).
Qed.

(** X5. How a declared method is rendered.  In an interface: a public
    signature and a semicolon, whatever the marker of the line was.  In an
    abstract class, when the method is public and its name holds [abstract]
    in any case of letters: an abstract signature and a semicolon.
    Otherwise: the signature and the placeholder body.  The name is never
    changed and [static] is never written. *)
Theorem method_rendering (plantuml_content : string)
    (parsed_elements : dict element) (name : string) (details : element)
    (m : Method.t) :
  declarations plantuml_content = Some parsed_elements ->
  dict_get name parsed_elements = Some details ->
  In m (methods details) ->
  render_method details m
  = if kind_eqb (type details) interface
    then signature "public" "" m ++ ";" ++ nl ++ nl
    else if kind_eqb (type details) abstract_class
            && String.eqb (Method.visibility m) "public"
            && Py.contains "abstract" (Py.lower (Method.name m))
         then signature (Method.visibility m) "abstract " m ++ ";" ++ nl ++ nl
         else signature (Method.visibility m) "" m ++ placeholder m.
Proof.
  intros Hd Hn Hm. apply render_method_word.
  exact (declared_method_word _ _ _ _ _ Hd Hn Hm).
Qed.

(** A public method of an abstract class whose name holds [Abstract]. *)
Lemma method_rendering_witness :
  render_method Shapes.figure (Method.make "public" "isAbstract" "" "boolean")
  = unlines ["    public abstract boolean isAbstract();"; ""].
Proof.
  rewrite (method_rendering Shapes.text Shapes.parsed_elements "Figure"
             Shapes.figure (Method.make "public" "isAbstract" "" "boolean")
             ltac:(vm_compute; reflexivity) ltac:(vm_compute; reflexivity)
             ltac:(simpl; auto)).
  vm_compute. reflexivity.
Defined.

(** X6. The file of an interface: the imports, the header, the fields and
    the accessors of the lines without parameter list, then every method as
    a public signature with a semicolon; no constructor. *)
Theorem interface_file_layout (plantuml_content : string)
    (parsed_elements : dict element) (relationships : relations)
    (files : dict string) (name : string) (details : element) :
  declarations plantuml_content = Some parsed_elements ->
  pass3 plantuml_content parsed_elements = Some relationships ->
  generate_java_code_from_plantuml plantuml_content = Some files ->
  dict_get name parsed_elements = Some details ->
  type details = interface ->
  exists header,
    render_header relationships name details = Some header
    /\ dict_get name files
       = Some (render_imports details ++ header ++ render_fields details
               ++ render_accessors details
               ++ String.concat ""
                    (map (fun m => signature "public" "" m ++ ";" ++ nl ++ nl)
                       (methods details))
               ++ "}" ++ nl).
Proof.
  intros Hd Hr Hg Hn Hk.
  rewrite (generate_get _ _ _ _ _ _ Hd Hr Hg Hn).
  destruct (render_total parsed_elements relationships name details)
    as (text & Ht).
  unfold render in *.
  destruct (render_header relationships name details) as [header |];
    [| discriminate].
  exists header. split; [reflexivity |]. clear Ht text.
  assert (Hms : render_methods details
                = String.concat ""
                    (map (fun m => signature "public" "" m ++ ";" ++ nl ++ nl)
                       (methods details))).
  { unfold render_methods. f_equal. apply map_ext_in. intros m Hm.
    rewrite (render_method_word _ _ (declared_method_word _ _ _ _ _ Hd Hn Hm)).
    now rewrite Hk. }
  rewrite Hms. unfold render_constructor. rewrite Hk. reflexivity.
Qed.

Lemma interface_file_layout_witness :
  generate_java_code_from_plantuml Shapes.text = Some Shapes.files
  /\ dict_get "Shape" Shapes.files = Some Shapes.shape_java.
Proof.
  split; [vm_compute; reflexivity |].
  destruct (interface_file_layout Shapes.text Shapes.parsed_elements
              Shapes.relationships Shapes.files "Shape" Shapes.shape
              ltac:(vm_compute; reflexivity) ltac:(vm_compute; reflexivity)
              ltac:(vm_compute; reflexivity) ltac:(vm_compute; reflexivity)
              eq_refl)
    as (header & Hheader & Hfile).
  rewrite Hfile. vm_compute in Hheader. injection Hheader as <-.
  vm_compute. reflexivity.
Defined.

(** X7. A class or abstract class with no parent, or whose parent is an
    interface or has no attribute: the constructor takes the attributes of
    the class itself and assigns them; it does not call [super]. *)
Theorem constructor_without_super (plantuml_content : string)
    (parsed_elements : dict element) (relationships : relations)
    (files : dict string) (name : string) (details : element) :
  declarations plantuml_content = Some parsed_elements ->
  pass3 plantuml_content parsed_elements = Some relationships ->
  generate_java_code_from_plantuml plantuml_content = Some files ->
  dict_get name parsed_elements = Some details ->
  type details <> interface ->
  (forall P parent,
     dict_get name (extends relationships) = Some P ->
     dict_get P parsed_elements = Some parent ->
     type parent = interface \/ attributes parent = []) ->
  exists header,
    render_header relationships name details = Some header
    /\ dict_get name files
       = Some (render_imports details ++ header ++ render_fields details
               ++ ("    public " ++ name ++ "("
                   ++ Py.join ", "
                        (map (fun a => Attribute.type a ++ " " ++ Attribute.name a)
                           (attributes details))
                   ++ ") {" ++ nl
                   ++ String.concat ""
                        (map (fun a => "        this." ++ Attribute.name a
                                       ++ " = " ++ Attribute.name a ++ ";" ++ nl)
                           (attributes details))
                   ++ "    }" ++ nl ++ nl)
               ++ render_accessors details ++ render_methods details
               ++ "}" ++ nl).
Proof.
  intros Hd Hr Hg Hn Hk Hparent.
  rewrite (generate_get _ _ _ _ _ _ Hd Hr Hg Hn).
  destruct (render_total parsed_elements relationships name details)
    as (text & Ht).
  unfold render in *.
  destruct (render_header relationships name details) as [header |];
    [| discriminate].
  exists header. split; [reflexivity |]. clear Ht text.
  assert (Hplain : plain_constructor name details
                   = "    public " ++ name ++ "("
                     ++ Py.join ", "
                          (map (fun a => Attribute.type a ++ " " ++ Attribute.name a)
                             (attributes details))
                     ++ ") {" ++ nl
                     ++ String.concat ""
                          (map (fun a => "        this." ++ Attribute.name a
                                         ++ " = " ++ Attribute.name a ++ ";" ++ nl)
                             (attributes details))
                     ++ "    }" ++ nl ++ nl).
  { unfold plain_constructor, constructor_head, assignments, constructor_end,
      assignment, param.
    now rewrite !append_assoc. }
  assert (Hc : render_constructor parsed_elements relationships name details
               = Some (plain_constructor name details)).
  { unfold render_constructor.
    replace (kind_eqb (type details) interface) with false
      by (destruct (type details); simpl; congruence).
    cbn [negb].
    destruct (dict_get name (extends relationships)) as [P |] eqn:EP;
      [| reflexivity].
    destruct (Py.truthy P && dict_mem P parsed_elements) eqn:Em;
      [| reflexivity].
    apply andb_true_iff in Em as [_ Em].
    destruct (dict_mem_get _ _ Em) as (parent & Hp). rewrite Hp. cbn [bind].
    destruct (Hparent P parent eq_refl Hp) as [Hi | Ha].
    - now rewrite Hi.
    - rewrite Ha. cbn [map app].
      destruct (negb (kind_eqb (type parent) interface)); reflexivity. }
  rewrite Hc, Hplain. reflexivity.
Qed.

(** [Circle], a class, has the interface [Shape] for parent. *)
Lemma constructor_without_super_witness :
  generate_java_code_from_plantuml Shapes.text = Some Shapes.files
  /\ dict_get "Circle" Shapes.files = Some Shapes.circle_java.
Proof.
  split; [vm_compute; reflexivity |].
  destruct (constructor_without_super Shapes.text Shapes.parsed_elements
              Shapes.relationships Shapes.files "Circle" Shapes.circle
              ltac:(vm_compute; reflexivity) ltac:(vm_compute; reflexivity)
              ltac:(vm_compute; reflexivity) ltac:(vm_compute; reflexivity)
              ltac:(simpl; discriminate)
              ltac:(intros P parent HP Hparent; vm_compute in HP;
                    injection HP as <-; vm_compute in Hparent;
                    injection Hparent as <-; left; reflexivity))
    as (header & Hheader & Hfile).
  rewrite Hfile. vm_compute in Hheader. injection Hheader as <-.
  vm_compute. reflexivity.
Defined.

Lemma pass4_keys (parsed_elements : dict element) (relationships : relations)
    (items : dict element) :
  forall files files',
    foldM (write_file parsed_elements relationships) items files = Some files' ->
    NoDup (keys items) ->
    (forall k, In k (keys items) -> dict_mem k files = false) ->
    keys files' = (keys files ++ keys items)%list.
Proof.
  induction items as [| [k d] items IH]; intros files files' H Hn Hnew;
    simpl in H.
  - injection H as <-. simpl. now rewrite app_nil_r.
  - destruct (render parsed_elements relationships k d) as [text |];
      [| discriminate].
    cbn [bind] in H. inversion Hn as [| ? ? Hk Hd]; subst.
    rewrite (IH _ _ H Hd).
    + rewrite keys_dict_set, (Hnew k (or_introl eq_refl)).
      simpl. now rewrite <- app_assoc.
    + intros k' Hk'. rewrite dict_mem_set, (Hnew k' (or_intror Hk')).
      destruct (String.eqb k' k) eqn:E; [| reflexivity].
      apply String.eqb_eq in E. subst k'. contradiction.
Qed.

(** X8. The files are written one for each declared name, in the order of
    the declaration table. *)
Theorem one_file_per_declaration (plantuml_content : string) :
  exists parsed_elements files,
    declarations plantuml_content = Some parsed_elements
    /\ generate_java_code_from_plantuml plantuml_content = Some files
    /\ keys files = keys parsed_elements.
Proof.
  destruct (declarations_total plantuml_content) as (parsed & Hd & Hp).
  destruct (pass3_total plantuml_content parsed) as (rel & Hr & _).
  destruct (pass4_total parsed rel parsed []) as (files & Hf & _).
  exists parsed, files. split; [exact Hd |]. split.
  - unfold generate_java_code_from_plantuml. rewrite Hd. cbn [bind].
    now rewrite Hr.
  - now rewrite (pass4_keys _ _ _ _ _ Hf Hp).
Qed.

Lemma last_cons {A : Type} (x : A) (l : list A) (d d' : A) :
  last (x :: l) d = last (x :: l) d'.
Proof.
  revert x. induction l as [| y l IH]; intros x; [reflexivity |].
  change (last (y :: l) d = last (y :: l) d'). apply IH.
Qed.

Lemma add_extends_get (parsed_elements : dict element) (name : string)
    (l : list Re.groups) :
  forall ext,
    dict_get name (fold_left (add_extends parsed_elements) l ext)
    = last (map Some (edges_from parsed_elements l name)) (dict_get name ext).
Proof.
  induction l as [| g l IH]; intros ext; [reflexivity |].
  cbn [fold_left]. rewrite IH. clear IH.
  unfold add_extends, edges_from. cbn [flat_map].
  fold (edges_from parsed_elements l name).
  destruct (Re.group 1 g) as [child |]; [| reflexivity].
  destruct (Re.group 2 g) as [parent |]; [| reflexivity].
  destruct (dict_mem child parsed_elements && dict_mem parent parsed_elements);
    [| reflexivity].
  cbn [andb]. destruct (String.eqb child name) eqn:E.
  - apply String.eqb_eq in E. subst child. rewrite dict_get_set_same.
    cbn [app map].
    destruct (map Some (edges_from parsed_elements l name)) as [| x t];
      [reflexivity |].
    change (last (x :: t) (Some parent) = last (x :: t) (dict_get name ext)).
    apply last_cons.
  - apply String.eqb_neq in E. rewrite dict_get_set_other by congruence.
    reflexivity.
Qed.

(** X9. The two tables of pass 3, read off the edges of the text that have
    both ends in the table: the parent of a name is the right end of the
    last generalization edge that starts at it, and its interfaces are the
    right ends of all the realization edges that start at it, in order. *)
Theorem relationship_tables_follow_edges (plantuml_content : string)
    (parsed_elements : dict element) :
  exists relationships,
    pass3 plantuml_content parsed_elements = Some relationships
    /\ forall name,
         dict_get name (extends relationships)
         = last (map Some
                   (edges_from parsed_elements
                      (Re.finditer inheritance_pattern plantuml_content) name))
             None
         /\ dict_get name (implements relationships)
            = match edges_from parsed_elements
                      (Re.finditer implementation_pattern plantuml_content) name
              with
              | [] => None
              | interfaces => Some interfaces
              end.
Proof.
  destruct (pass3_total plantuml_content parsed_elements) as (rel & Hr & _).
  exists rel. split; [exact Hr |]. intros name. split.
  - unfold pass3 in Hr.
    destruct (foldM _ _ _) as [impl |]; [| discriminate].
    cbn [bind] in Hr. injection Hr as <-. cbn [extends].
    apply add_extends_get.
  - apply (implements_get _ _ _ name Hr).
Qed.

Lemma finditer_from_within (r : Re.regex) (g : Re.groups) (s : string) :
  forall prev skip,
    In g (Re.finditer_from r prev s skip) ->
    exists cur cur' before,
      Re.match_at r cur = Some (g, cur') /\ s = before ++ Re.rest cur.
Proof.
  induction s as [| c s IH]; intros prev skip H; simpl in H.
  - destruct skip; [| contradiction].
    destruct (Re.match_at r (prev, "")) as [[g0 cur'] |] eqn:E; [| contradiction].
    destruct H as [<- | []]. now exists (prev, ""), cur', "".
  - assert (Hnext : forall p n,
              In g (Re.finditer_from r p s n) ->
              exists cur cur' before,
                Re.match_at r cur = Some (g, cur')
                /\ String c s = before ++ Re.rest cur).
    { intros p n Hin. destruct (IH _ _ Hin) as (cur & cur' & b & Hm & Hs).
      exists cur, cur', (String c b). simpl. now rewrite <- Hs. }
    destruct skip as [| n]; [| eauto].
    destruct (Re.match_at r (prev, String c s)) as [[g0 cur'] |] eqn:E;
      [| eauto].
    destruct H as [<- | H]; [| eauto].
    now exists (prev, String c s), cur', "".
Qed.

Lemma prefix_app (n b : string) : String.prefix n (n ++ b) = true.
Proof.
  induction n as [| c n IH]; simpl; [now destruct b |].
  destruct (ascii_dec c c); [exact IH | contradiction].
Qed.

Lemma contains_prefix (n s : string) :
  String.prefix n s = true -> Py.contains n s = true.
Proof. intros H. destruct s; cbn [Py.contains]; now rewrite H. Qed.

Lemma contains_app (n a b : string) : Py.contains n (a ++ n ++ b) = true.
Proof.
  induction a as [| c a IH].
  - change ("" ++ n ++ b) with (n ++ b). apply contains_prefix, prefix_app.
  - simpl. rewrite IH. apply orb_true_r.
Qed.

Lemma class_match_keyword (cur cur' : Re.cursor) (g : Re.groups) :
  Re.match_at class_pattern cur = Some (g, cur') ->
  exists a b, Re.rest cur = a ++ "class" ++ b.
Proof.
  intros H. apply ReFacts.match_at_sound in H. unfold class_pattern in H.
  inversion H as [| | | | ? ? ? ? c1 g1 ? ? Hopt Hrest | | | | |]; subst.
  destruct (matches_text _ _ _ _ _ Hopt) as (a & Ha & _).
  inversion Hrest as [| | | | ? ? ? ? c2 g2 ? ? Hlit _ | | | | |]; subst.
  inversion Hlit as [? ? ? ? Hl | | | | | | | | |]; subst.
  apply lit_text in Hl. exists a, (Re.rest c2). now rewrite Ha, Hl.
Qed.

Lemma interface_match_keyword (cur cur' : Re.cursor) (g : Re.groups) :
  Re.match_at interface_pattern cur = Some (g, cur') ->
  exists b, Re.rest cur = "interface" ++ b.
Proof.
  intros H. apply ReFacts.match_at_sound in H. unfold interface_pattern in H.
  inversion H as [| | | | ? ? ? ? c1 g1 ? ? Hlit _ | | | | |]; subst.
  inversion Hlit as [? ? ? ? Hl | | | | | | | | |]; subst.
  apply lit_text in Hl. now exists (Re.rest c1).
Qed.

Lemma no_class_no_match (text : string) :
  Py.contains "class" text = false -> Re.finditer class_pattern text = [].
Proof.
  intros H. destruct (Re.finditer class_pattern text) as [| g l] eqn:E;
    [reflexivity |].
  assert (Hin : In g (Re.finditer class_pattern text)) by (rewrite E; now left).
  apply finditer_from_within in Hin as (cur & cur' & before & Hm & Hs).
  destruct (class_match_keyword _ _ _ Hm) as (a & b & Hr).
  rewrite Hs, Hr, <- append_assoc, contains_app in H. discriminate.
Qed.

Lemma no_interface_no_match (text : string) :
  Py.contains "interface" text = false ->
  Re.finditer interface_pattern text = [].
Proof.
  intros H. destruct (Re.finditer interface_pattern text) as [| g l] eqn:E;
    [reflexivity |].
  assert (Hin : In g (Re.finditer interface_pattern text))
    by (rewrite E; now left).
  apply finditer_from_within in Hin as (cur & cur' & before & Hm & Hs).
  destruct (interface_match_keyword _ _ _ Hm) as (b & Hr).
  rewrite Hs, Hr, contains_app in H. discriminate.
Qed.

(** X10. A text that holds neither [class] nor [interface] declares
    nothing: no file is written, whatever else the text holds. *)
Theorem nothing_declared_nothing_written (plantuml_content : string) :
  Py.contains "class" plantuml_content = false ->
  Py.contains "interface" plantuml_content = false ->
  declarations plantuml_content = Some []
  /\ generate_java_code_from_plantuml plantuml_content = Some [].
Proof.
  intros Hc Hi.
  assert (Hd : declarations plantuml_content = Some []).
  { unfold declarations, pass1.
    now rewrite (no_class_no_match _ Hc), (no_interface_no_match _ Hi). }
  split; [exact Hd |].
  unfold generate_java_code_from_plantuml. rewrite Hd. cbn [bind].
  destruct (pass3_total plantuml_content []) as (rel & -> & _). reflexivity.
Qed.

(** Two edges and no declaration. *)
Lemma nothing_declared_nothing_written_witness :
  declarations (unlines ["Person <|-- Student"; "Student ..|> Payable"])
  = Some []
  /\ generate_java_code_from_plantuml
       (unlines ["Person <|-- Student"; "Student ..|> Payable"])
     = Some [].
Proof.
  apply nothing_declared_nothing_written; vm_compute; reflexivity.
Defined.

Lemma split_app (sep : ascii) (a b : string) :
  count sep a = 0 ->
  Py.split sep (a ++ String sep b) = a :: Py.split sep b.
Proof.
  induction a as [| c a IH]; simpl.
  - now rewrite Ascii.eqb_refl.
  - destruct (Ascii.eqb c sep); [discriminate |]. simpl. intros H.
    now rewrite (IH H).
Qed.

Lemma split_plain (sep : ascii) (a : string) :
  count sep a = 0 -> Py.split sep a = [a].
Proof.
  induction a as [| c a IH]; simpl; [reflexivity |].
  destruct (Ascii.eqb c sep); [discriminate |]. simpl. intros H.
  now rewrite (IH H).
Qed.

Lemma split_length (sep : ascii) (s : string) :
  length (Py.split sep s) = S (count sep s).
Proof.
  induction s as [| c s IH]; simpl; [reflexivity |].
  destruct (Ascii.eqb c sep); simpl; [now rewrite IH |].
  destruct (Py.split sep s); simpl in *; [discriminate | exact IH].
Qed.

(** X11. A parameter written [name: Type], with one colon: it is rendered
    [Type name], both parts stripped. *)
Theorem parameter_swaps_name_and_type (p a b : string) :
  Py.strip p = a ++ ":" ++ b -> count ":" a = 0 -> count ":" b = 0 ->
  java_param p = Py.strip b ++ " " ++ Py.strip a.
Proof.
  intros Hp Ha Hb. unfold java_param.
  change (a ++ ":" ++ b) with (a ++ String ":" b) in Hp.
  now rewrite Hp, (split_app _ _ _ Ha), (split_plain _ _ Hb).
Qed.

Lemma parameter_swaps_name_and_type_witness :
  java_param " factor : double " = "double factor".
Proof.
  apply (parameter_swaps_name_and_type " factor : double " "factor " " double");
    reflexivity.
Defined.

(** X12. A parameter with no colon, or with more than one: it is kept as
    it is written, stripped. *)
Theorem parameter_kept_as_written (p : string) :
  count ":" (Py.strip p) <> 1 -> java_param p = Py.strip p.
Proof.
  intros H. unfold java_param.
  pose proof (split_length ":" (Py.strip p)) as Hl.
  destruct (Py.split ":" (Py.strip p)) as [| x [| y [| z l]]]; try reflexivity.
  simpl in Hl. congruence.
Qed.

Lemma parameter_kept_as_written_witness :
  java_param " entries: Map<K:V> " = "entries: Map<K:V>".
Proof.
  apply parameter_kept_as_written. vm_compute. discriminate.
Defined.

Lemma foldM_app {S X : Type} (f : S -> X -> option S) (l1 l2 : list X) (s : S) :
  foldM f (l1 ++ l2) s = (s' <- foldM f l1 s ;; foldM f l2 s').
Proof.
  revert s. induction l1 as [| x l1 IH]; intros s; simpl; [reflexivity |].
  destruct (f s x) as [s1 |]; simpl; [apply IH | reflexivity].
Qed.

Lemma add_class_other (name : string) (l : list Re.groups) :
  forall parsed_elements parsed',
    foldM add_class l parsed_elements = Some parsed' ->
    (forall g, In g l -> Re.group 2 g <> Some name) ->
    dict_get name parsed' = dict_get name parsed_elements.
Proof.
  induction l as [| g l IH]; intros p p' H Hl; simpl in H.
  - now injection H as <-.
  - destruct (add_class p g) as [p1 |] eqn:E; [| discriminate].
    cbn [bind] in H. rewrite (IH _ _ H); [| intros g' Hg'; apply Hl; now right].
    unfold add_class in E.
    destruct (Re.group 2 g) as [n |] eqn:E2; [| discriminate].
    destruct (Re.group 3 g) as [b |]; [| discriminate].
    cbn [bind] in E. injection E as <-.
    apply dict_get_set_other. intros ->. now apply (Hl g (or_introl eq_refl)).
Qed.

Lemma add_interface_other (name : string) (l : list Re.groups) :
  forall parsed_elements parsed',
    foldM add_interface l parsed_elements = Some parsed' ->
    (forall g, In g l -> Re.group 1 g <> Some name) ->
    dict_get name parsed' = dict_get name parsed_elements.
Proof.
  induction l as [| g l IH]; intros p p' H Hl; simpl in H.
  - now injection H as <-.
  - destruct (add_interface p g) as [p1 |] eqn:E; [| discriminate].
    cbn [bind] in H. rewrite (IH _ _ H); [| intros g' Hg'; apply Hl; now right].
    unfold add_interface in E.
    destruct (Re.group 1 g) as [n |] eqn:E1; [| discriminate].
    destruct (Re.group 2 g) as [b |]; [| discriminate].
    cbn [bind] in E. injection E as <-.
    apply dict_get_set_other. intros ->. now apply (Hl g (or_introl eq_refl)).
Qed.

(** X13. A name declared by several class blocks and by no interface block:
    the last block decides.  The kind is the one of the last block, and the
    attributes and methods are those of its body alone. *)
Theorem last_class_match_wins (plantuml_content name body_ : string)
    (before after : list Re.groups) (g : Re.groups) :
  Re.finditer class_pattern plantuml_content = (before ++ g :: after)%list ->
  Re.group 2 g = Some name ->
  Re.group 3 g = Some body_ ->
  (forall g', In g' after -> Re.group 2 g' <> Some name) ->
  (forall gi, In gi (Re.finditer interface_pattern plantuml_content) ->
              Re.group 1 gi <> Some name) ->
  exists parsed_elements details,
    declarations plantuml_content = Some parsed_elements
    /\ dict_get name parsed_elements = Some details
    /\ parse_members (class_entry g body_) = Some details
    /\ type details = type (class_entry g body_)
    /\ body details = body_.
Proof.
  intros Hl Hn Hb Hafter Hi.
  destruct (declarations_total plantuml_content) as (parsed & Hd & _).
  exists parsed. pose proof Hd as Hdecl. unfold declarations in Hd.
  destruct (pass1 plantuml_content) as [p1 |] eqn:E1; [| discriminate].
  cbn [bind] in Hd. unfold pass1 in E1. rewrite Hl, foldM_app in E1.
  destruct (foldM add_class before []) as [p0 |]; [| discriminate].
  cbn [bind foldM] in E1.
  destruct (add_class p0 g) as [pg |] eqn:Eg; [| discriminate].
  cbn [bind] in E1.
  destruct (foldM add_class after pg) as [classes |] eqn:Ea; [| discriminate].
  cbn [bind] in E1.
  assert (Hget : dict_get name p1 = Some (class_entry g body_)).
  { rewrite (add_interface_other name _ _ _ E1 Hi),
      (add_class_other name _ _ _ Ea Hafter).
    unfold add_class in Eg. rewrite Hn, Hb in Eg. cbn [bind] in Eg.
    injection Eg as <-. rewrite dict_get_set_same. f_equal.
    unfold class_entry. f_equal.
    destruct (Re.group 1 g) as [w |] eqn:E; [| reflexivity].
    assert (Hin : In g (Re.finditer class_pattern plantuml_content))
      by (rewrite Hl; apply in_elt).
    apply ReFacts.finditer_sound in Hin as (cur & cur' & Hm).
    apply ReFacts.match_at_sound in Hm.
    assert (Hw : w <> "").
    { apply (ReFacts.matches_tight 1 _ _ _ _ _ Hm eq_refl); [discriminate | exact E]. }
    now destruct w. }
  pose proof (pass2_get _ _ name Hd) as H2. rewrite Hget in H2.
  destruct (parse_members_total (class_entry g body_)) as (d & Hp & Ht).
  exists d. repeat split; try congruence.
  destruct (parse_members_ok _ _ Hp) as (Hbody & _); [constructor .. |].
  exact Hbody.
Qed.

(** Two class blocks of one name; the second is abstract. *)
Lemma last_class_match_wins_witness :
  exists parsed_elements details,
    declarations
      (unlines ["class Account { - id: int }";
                "abstract class Account { - owner: String }"])
    = Some parsed_elements
    /\ dict_get "Account" parsed_elements = Some details
    /\ parse_members
         (class_entry [(3, " - owner: String "); (2, "Account"); (1, "abstract")]
            " - owner: String ")
       = Some details
    /\ type details
       = type (class_entry
                 [(3, " - owner: String "); (2, "Account"); (1, "abstract")]
                 " - owner: String ")
    /\ body details = " - owner: String ".
Proof.
  apply (last_class_match_wins
           (unlines ["class Account { - id: int }";
                     "abstract class Account { - owner: String }"])
           "Account" " - owner: String "
           [[(3, " - id: int "); (2, "Account")]] []
           [(3, " - owner: String "); (2, "Account"); (1, "abstract")]).
  - vm_compute. reflexivity.
  - reflexivity.
  - reflexivity.
  - intros g' [].
  - intros gi Hgi. vm_compute in Hgi. contradiction.
Defined.

(** ** Running the matcher on a line of known shape *)

Section Run.

Variable A : Type.
Variable a : A.

Lemma run_star (p : ascii -> bool) (w r : string) (g : Re.groups)
    (k : Re.cursor -> Re.groups -> option A) :
  every p w = true -> stops p r ->
  forall prev,
    k (last_prev prev w, r) g = Some a ->
    Re.exec A (Re.Star p) (prev, w ++ r) g k = Some a.
Proof.
  intros Hw Hr. cbn [Re.exec fst Re.rest snd].
  induction w as [| c w IH]; intros prev Hk; cbn [append last_prev] in *.
  - destruct r as [| d r]; cbn [Re.star]; [exact Hk |].
    cbn [stops] in Hr. now rewrite Hr.
  - simpl in Hw. apply andb_true_iff in Hw as [Hc Hw].
    cbn [Re.star]. now rewrite Hc, (IH Hw _ Hk).
Qed.

Lemma run_cat (r1 r2 : Re.regex) (cur : Re.cursor) (g : Re.groups)
    (k : Re.cursor -> Re.groups -> option A) :
  Re.exec A r1 cur g (fun cur' g' => Re.exec A r2 cur' g' k) = Some a ->
  Re.exec A (Re.Cat r1 r2) cur g k = Some a.
Proof. intros H. exact H. Qed.

Lemma run_lit (l : string) (cur cur' : Re.cursor) (g : Re.groups)
    (k : Re.cursor -> Re.groups -> option A) :
  Re.lit l cur = Some cur' -> k cur' g = Some a ->
  Re.exec A (Re.Lit l) cur g k = Some a.
Proof. intros Hl Hk. cbn [Re.exec]. now rewrite Hl. Qed.

Lemma run_opt_taken (r : Re.regex) (cur : Re.cursor) (g : Re.groups)
    (k : Re.cursor -> Re.groups -> option A) :
  Re.exec A r cur g k = Some a -> Re.exec A (Re.Opt r) cur g k = Some a.
Proof. intros H. cbn [Re.exec]. now rewrite H. Qed.

Lemma run_opt_skipped (r : Re.regex) (cur : Re.cursor) (g : Re.groups)
    (k : Re.cursor -> Re.groups -> option A) :
  Re.exec A r cur g k = None -> k cur g = Some a ->
  Re.exec A (Re.Opt r) cur g k = Some a.
Proof. intros H Hk. cbn [Re.exec]. now rewrite H. Qed.

Lemma run_marker (i : nat) (p : ascii -> bool) (c : ascii) (r : string)
    (prev : option ascii) (g : Re.groups)
    (k : Re.cursor -> Re.groups -> option A) :
  p c = true ->
  k (Some c, r) ((i, String c "") :: g) = Some a ->
  Re.exec A (Re.Grp i (Re.Cls p)) (prev, String c r) g k = Some a.
Proof.
  intros Hc Hk. cbn [Re.exec Re.rest snd]. rewrite Hc.
  now rewrite (consumed_app (prev, String c r) (Some c, r) (String c "")).
Qed.

Lemma run_name (i : nat) (p : ascii -> bool) (c : ascii) (w r : string)
    (prev : option ascii) (g : Re.groups)
    (k : Re.cursor -> Re.groups -> option A) :
  p c = true -> every p w = true -> stops p r ->
  k (last_prev (Some c) w, r) ((i, String c w) :: g) = Some a ->
  Re.exec A (Re.Grp i (Re.Plus p)) (prev, String c w ++ r) g k = Some a.
Proof.
  intros Hc Hw Hr Hk. unfold Re.Plus.
  change (Re.exec A (Re.Cls p) (prev, String c (w ++ r)) g
            (fun c1 g1 =>
               Re.exec A (Re.Star p) c1 g1
                 (fun cur' g' =>
                    k cur' ((i, Re.consumed (prev, String c w ++ r) cur') :: g')))
          = Some a).
  cbn [Re.exec Re.rest snd]. rewrite Hc.
  apply (run_star p w r g
           (fun cur' g' =>
              k cur' ((i, Re.consumed (prev, String c w ++ r) cur') :: g'))
           Hw Hr (Some c)).
  now rewrite (consumed_app (prev, String c w ++ r)
                 (last_prev (Some c) w, r) (String c w)).
Qed.

Lemma run_body (i : nat) (p : ascii -> bool) (w r : string)
    (prev : option ascii) (g : Re.groups)
    (k : Re.cursor -> Re.groups -> option A) :
  every p w = true -> stops p r ->
  k (last_prev prev w, r) ((i, w) :: g) = Some a ->
  Re.exec A (Re.Grp i (Re.Star p)) (prev, w ++ r) g k = Some a.
Proof.
  intros Hw Hr Hk.
  change (Re.exec A (Re.Star p) (prev, w ++ r) g
            (fun cur' g' =>
               k cur' ((i, Re.consumed (prev, w ++ r) cur') :: g'))
          = Some a).
  apply (run_star p w r g _ Hw Hr prev).
  now rewrite (consumed_app (prev, w ++ r) (last_prev prev w, r) w).
Qed.

Lemma run_bol (cur : Re.cursor) (g : Re.groups)
    (k : Re.cursor -> Re.groups -> option A) :
  Re.at_bol cur = true -> k cur g = Some a ->
  Re.exec A Re.Bol cur g k = Some a.
Proof. intros Hb Hk. cbn [Re.exec]. now rewrite Hb. Qed.

Lemma run_eol (cur : Re.cursor) (g : Re.groups)
    (k : Re.cursor -> Re.groups -> option A) :
  Re.at_eol cur = true -> k cur g = Some a ->
  Re.exec A Re.Eol cur g k = Some a.
Proof. intros He Hk. cbn [Re.exec]. now rewrite He. Qed.

End Run.

Lemma marker_cases (c : ascii) :
  one_of "+-#~" c = true -> c = "+"%char \/ c = "-"%char \/ c = "#"%char \/ c = "~"%char.
Proof.
  unfold one_of. simpl. intros H.
  repeat (apply orb_true_iff in H as [H | H];
          [apply Ascii.eqb_eq in H; auto |]).
  discriminate.
Qed.

Lemma rstrip_app_word (x t : string) :
  word t -> Py.rstrip (x ++ t) = x ++ t.
Proof.
  intros [Hne Hw]. induction x as [| c x IH]; cbn [append].
  - now apply rstrip_words.
  - cbn [Py.rstrip]. rewrite IH.
    destruct (x ++ t) eqn:E; [| reflexivity].
    destruct x; simpl in E; [contradiction | discriminate].
Qed.

Lemma strip_member_line (c : ascii) (x t : string) :
  Py.is_space c = false -> word t ->
  Py.strip (String c (x ++ t)) = String c (x ++ t).
Proof.
  intros Hc Ht. unfold Py.strip. cbn [Py.lstrip]. rewrite Hc.
  exact (rstrip_app_word (String c x) t Ht).
Qed.

Lemma append_empty (s : string) : s ++ "" = s.
Proof. induction s as [| c s IH]; simpl; [reflexivity | now rewrite IH]. Qed.

Lemma marker_not_space (c : ascii) :
  one_of "+-#~" c = true -> Py.is_space c = false.
Proof.
  intros H. destruct (marker_cases c H) as [-> | [-> | [-> | ->]]]; reflexivity.
Qed.

Ltac star_over w :=
  eapply (run_star _ _ _ w);
  [ reflexivity
  | cbn [stops]; first [assumption | reflexivity]
  | cbn [last_prev] ].

Ltac name_over i c w :=
  eapply (run_name _ _ i _ c w);
  [ assumption
  | assumption
  | cbn [stops]; first [assumption | reflexivity | exact I]
  | ].

Lemma attribute_line_match (c : ascii) (n t : string) :
  one_of "+-#~" c = true -> word n -> word t ->
  exists cur',
    Re.match_at member_pattern (None, String c (" " ++ n ++ ": " ++ t))
    = Some ([(3, t); (2, n); (1, String c "")], cur').
Proof.
  intros Hc [Hn0 Hn] [Ht0 Ht].
  destruct n as [| cn n']; [contradiction |].
  destruct t as [| ct t']; [contradiction |].
  simpl in Hn, Ht.
  apply andb_true_iff in Hn as [Hcn Hn'].
  apply andb_true_iff in Ht as [Hct Ht'].
  pose proof (marker_not_space c Hc) as Hsp.
  pose proof (is_word_not_space cn Hcn) as Hcn_sp.
  pose proof (is_word_not_space ct Hct) as Hct_sp.
  eexists. unfold Re.match_at, member_pattern.
  rewrite <- (append_empty t') at 1.
  cbn [append].
  apply run_cat. apply run_bol; [reflexivity |].
  apply run_cat. star_over "".
  apply run_cat. apply run_marker; [exact Hc |].
  apply run_cat. star_over " ".
  apply run_cat. name_over 2 cn n'.
  apply run_cat. apply run_opt_taken.
  apply run_cat. star_over "".
  apply run_cat. eapply run_lit; [reflexivity |].
  apply run_cat. star_over " ".
  name_over 3 ct t'.
  apply run_cat. apply run_opt_skipped; [reflexivity |].
  apply run_cat. apply run_opt_skipped; [reflexivity |].
  apply run_eol; reflexivity.
Qed.

Lemma method_line_match (c : ascii) (n ps t : string) :
  one_of "+-#~" c = true -> word n -> every (none_of ")") ps = true ->
  word t ->
  exists cur',
    Re.match_at member_pattern
      (None, String c (" " ++ n ++ "(" ++ ps ++ "): " ++ t))
    = Some ([(5, t); (4, ps); (2, n); (1, String c "")], cur').
Proof.
  intros Hc [Hn0 Hn] Hps [Ht0 Ht].
  destruct n as [| cn n']; [contradiction |].
  destruct t as [| ct t']; [contradiction |].
  simpl in Hn, Ht.
  apply andb_true_iff in Hn as [Hcn Hn'].
  apply andb_true_iff in Ht as [Hct Ht'].
  pose proof (marker_not_space c Hc) as Hsp.
  pose proof (is_word_not_space cn Hcn) as Hcn_sp.
  pose proof (is_word_not_space ct Hct) as Hct_sp.
  eexists. unfold Re.match_at, member_pattern.
  rewrite <- (append_empty t') at 1.
  cbn [append].
  apply run_cat. apply run_bol; [reflexivity |].
  apply run_cat. star_over "".
  apply run_cat. apply run_marker; [exact Hc |].
  apply run_cat. star_over " ".
  apply run_cat. name_over 2 cn n'.
  apply run_cat. apply run_opt_skipped; [reflexivity |].
  apply run_cat. apply run_opt_taken.
  apply run_cat. eapply run_lit; [reflexivity |].
  apply run_cat.
  eapply (run_body _ _ 4 _ ps); [exact Hps | reflexivity |].
  eapply run_lit; [reflexivity |].
  apply run_cat. apply run_opt_taken.
  apply run_cat. star_over "".
  apply run_cat. eapply run_lit; [reflexivity |].
  apply run_cat. star_over " ".
  name_over 5 ct t'.
  apply run_eol; reflexivity.
Qed.

Lemma or_default_given (t d : string) : t <> "" -> or_default (Some t) d = t.
Proof. intros H. destruct t; [contradiction | reflexivity]. Qed.

(** X14. A line [<marker> name: Type], with one of the four markers and
    two words: pass 2 records one attribute of that name and type, with the
    visibility of the marker, after the ones recorded so far. *)
Theorem attribute_line_is_parsed (details : element) (c : ascii)
    (n t : string) :
  one_of "+-#~" c = true -> word n -> word t ->
  parse_member details (String c (" " ++ n ++ ": " ++ t))
  = Some {| type := type details;
            attributes := (attributes details
                           ++ [Attribute.make
                                 (java_visibility (Some (String c ""))) t n])%list;
            methods := methods details;
            body := body details |}.
Proof.
  intros Hc Hn Ht. unfold parse_member, Re.match_.
  assert (Hline : String c (" " ++ n ++ ": " ++ t)
                  = String c ((" " ++ n ++ ": ") ++ t))
    by (cbn [append]; now rewrite (append_assoc n ": " t)).
  rewrite Hline, (strip_member_line _ _ _ (marker_not_space c Hc) Ht),
    <- Hline.
  destruct (attribute_line_match c n t Hc Hn Ht) as (cur' & ->).
  cbn [option_map fst Re.group Nat.eqb bind].
  now rewrite (or_default_given t "Object" (proj1 Ht)).
Qed.

Lemma attribute_line_is_parsed_witness :
  parse_member Shapes.circle "# centre: Point"
  = Some {| type := class;
            attributes := [Attribute.make "" "Object" "radius";
                           Attribute.make "protected" "Point" "centre"];
            methods := [];
            body := nl ++ unlines ["  ~ radius"] |}.
Proof.
  apply (attribute_line_is_parsed Shapes.circle "#" "centre" "Point");
    [reflexivity | split; [discriminate | reflexivity] ..].
Defined.

(** X15. A line [<marker> name(parameters): Type], with one of the four
    markers, two words and a parameter text without closing parenthesis:
    pass 2 records one method of that name and return type, with the
    visibility of the marker and the parameters rendered one by one. *)
Theorem method_line_is_parsed (details : element) (c : ascii)
    (n ps t : string) :
  one_of "+-#~" c = true -> word n -> every (none_of ")") ps = true ->
  word t ->
  parse_member details (String c (" " ++ n ++ "(" ++ ps ++ "): " ++ t))
  = Some {| type := type details;
            attributes := attributes details;
            methods := (methods details
                        ++ [Method.make (java_visibility (Some (String c "")))
                              n (Py.join ", " (java_params ps)) t])%list;
            body := body details |}.
Proof.
  intros Hc Hn Hps Ht. unfold parse_member, Re.match_.
  assert (Hline : String c (" " ++ n ++ "(" ++ ps ++ "): " ++ t)
                  = String c ((" " ++ n ++ "(" ++ ps ++ "): ") ++ t)).
  { cbn [append]. f_equal. f_equal.
    rewrite (append_assoc n _ t). f_equal. cbn [append]. f_equal.
    now rewrite (append_assoc ps _ t). }
  rewrite Hline, (strip_member_line _ _ _ (marker_not_space c Hc) Ht),
    <- Hline.
  destruct (method_line_match c n ps t Hc Hn Hps Ht) as (cur' & ->).
  cbn [option_map fst Re.group Nat.eqb bind].
  now rewrite (or_default_given t "void" (proj1 Ht)).
Qed.

Lemma method_line_is_parsed_witness :
  parse_member Shapes.circle "+ scale(factor: double, origin): Circle"
  = Some {| type := class;
            attributes := [Attribute.make "" "Object" "radius"];
            methods := [Method.make "public" "scale" "double factor, origin"
                          "Circle"];
            body := nl ++ unlines ["  ~ radius"] |}.
Proof.
  apply (method_line_is_parsed Shapes.circle "+" "scale"
           "factor: double, origin" "Circle");
    [reflexivity | split; [discriminate | reflexivity] | reflexivity
    | split; [discriminate | reflexivity]].
Defined.

Lemma rstrip_app_tail (x t : string) :
  Py.rstrip t = t -> t <> "" -> Py.rstrip (x ++ t) = x ++ t.
Proof.
  intros Ht Hne. induction x as [| c x IH]; cbn [append]; [exact Ht |].
  cbn [Py.rstrip]. rewrite IH.
  destruct (x ++ t) eqn:E; [| reflexivity].
  destruct x; simpl in E; [contradiction | discriminate].
Qed.

Lemma bare_attribute_line_match (c : ascii) (n : string) :
  one_of "+-#~" c = true -> word n ->
  exists cur',
    Re.match_at member_pattern (None, String c (" " ++ n))
    = Some ([(2, n); (1, String c "")], cur').
Proof.
  intros Hc [Hn0 Hn].
  destruct n as [| cn n']; [contradiction |].
  simpl in Hn. apply andb_true_iff in Hn as [Hcn Hn'].
  pose proof (marker_not_space c Hc) as Hsp.
  pose proof (is_word_not_space cn Hcn) as Hcn_sp.
  eexists. unfold Re.match_at, member_pattern.
  rewrite <- (append_empty n') at 1.
  cbn [append].
  apply run_cat. apply run_bol; [reflexivity |].
  apply run_cat. star_over "".
  apply run_cat. apply run_marker; [exact Hc |].
  apply run_cat. star_over " ".
  apply run_cat. name_over 2 cn n'.
  apply run_cat. apply run_opt_skipped; [reflexivity |].
  apply run_cat. apply run_opt_skipped; [reflexivity |].
  apply run_cat. apply run_opt_skipped; [reflexivity |].
  apply run_eol; reflexivity.
Qed.

Lemma bare_method_line_match (c : ascii) (n ps : string) :
  one_of "+-#~" c = true -> word n -> every (none_of ")") ps = true ->
  exists cur',
    Re.match_at member_pattern (None, String c (" " ++ n ++ "(" ++ ps ++ ")"))
    = Some ([(4, ps); (2, n); (1, String c "")], cur').
Proof.
  intros Hc [Hn0 Hn] Hps.
  destruct n as [| cn n']; [contradiction |].
  simpl in Hn. apply andb_true_iff in Hn as [Hcn Hn'].
  pose proof (marker_not_space c Hc) as Hsp.
  pose proof (is_word_not_space cn Hcn) as Hcn_sp.
  eexists. unfold Re.match_at, member_pattern.
  cbn [append].
  apply run_cat. apply run_bol; [reflexivity |].
  apply run_cat. star_over "".
  apply run_cat. apply run_marker; [exact Hc |].
  apply run_cat. star_over " ".
  apply run_cat. name_over 2 cn n'.
  apply run_cat. apply run_opt_skipped; [reflexivity |].
  apply run_cat. apply run_opt_taken.
  apply run_cat. eapply run_lit; [reflexivity |].
  apply run_cat.
  eapply (run_body _ _ 4 _ ps); [exact Hps | reflexivity |].
  eapply run_lit; [reflexivity |].
  apply run_cat. apply run_opt_skipped; [reflexivity |].
  apply run_eol; reflexivity.
Qed.

(** X16. A line [<marker> name] and nothing else: pass 2 records an
    attribute of type [Object]. *)
Theorem attribute_type_defaults_to_object (details : element) (c : ascii)
    (n : string) :
  one_of "+-#~" c = true -> word n ->
  parse_member details (String c (" " ++ n))
  = Some {| type := type details;
            attributes := (attributes details
                           ++ [Attribute.make
                                 (java_visibility (Some (String c "")))
                                 "Object" n])%list;
            methods := methods details;
            body := body details |}.
Proof.
  intros Hc Hn. unfold parse_member, Re.match_.
  rewrite (strip_member_line _ _ _ (marker_not_space c Hc) Hn).
  destruct (bare_attribute_line_match c n Hc Hn) as (cur' & ->).
  reflexivity.
Qed.

Lemma attribute_type_defaults_to_object_witness :
  parse_member Shapes.circle "- id"
  = Some {| type := class;
            attributes := [Attribute.make "" "Object" "radius";
                           Attribute.make "private" "Object" "id"];
            methods := [];
            body := nl ++ unlines ["  ~ radius"] |}.
Proof.
  apply (attribute_type_defaults_to_object Shapes.circle "-" "id");
    [reflexivity | split; [discriminate | reflexivity]].
Defined.

(** X17. A line [<marker> name(parameters)] with no return type: pass 2
    records a method that returns [void]. *)
Theorem return_type_defaults_to_void (details : element) (c : ascii)
    (n ps : string) :
  one_of "+-#~" c = true -> word n -> every (none_of ")") ps = true ->
  parse_member details (String c (" " ++ n ++ "(" ++ ps ++ ")"))
  = Some {| type := type details;
            attributes := attributes details;
            methods := (methods details
                        ++ [Method.make (java_visibility (Some (String c "")))
                              n (Py.join ", " (java_params ps)) "void"])%list;
            body := body details |}.
Proof.
  intros Hc Hn Hps. unfold parse_member, Re.match_.
  assert (Hline : String c (" " ++ n ++ "(" ++ ps ++ ")")
                  = (String c (" " ++ n ++ "(" ++ ps)) ++ ")").
  { cbn [append]. now rewrite (append_assoc n _ ")"). }
  assert (Hstrip : Py.strip (String c (" " ++ n ++ "(" ++ ps ++ ")"))
                   = String c (" " ++ n ++ "(" ++ ps ++ ")")).
  { unfold Py.strip. cbn [Py.lstrip]. rewrite (marker_not_space c Hc).
    rewrite Hline. now apply rstrip_app_tail. }
  rewrite Hstrip.
  destruct (bare_method_line_match c n ps Hc Hn Hps) as (cur' & ->).
  reflexivity.
Qed.

Lemma return_type_defaults_to_void_witness :
  parse_member Shapes.circle "~ reset()"
  = Some {| type := class;
            attributes := [Attribute.make "" "Object" "radius"];
            methods := [Method.make "" "reset" "" "void"];
            body := nl ++ unlines ["  ~ radius"] |}.
Proof.
  apply (return_type_defaults_to_void Shapes.circle "~" "reset" "");
    [reflexivity | split; [discriminate | reflexivity] | reflexivity].
Defined.
